(** * Pywalfox: the theme pipeline of the background script and the
      dialog logic of the settings page

    A shallow embedding of three pieces of the extension:

    - [SettingsCard]: [src/ui/settings.ts], the click handler of a
      setting card, over a small document store;
    - [SettingsPage]: [openDialog] / [closeDialog] of the settings page
      script, as a step function on the page state;
    - [Background]: the [Extension] class of the background script, as
      a state-and-log monad over the flat settings object and the list
      of calls made to the browser, the extension pages, DuckDuckGo,
      the UI messenger and the native app; its second part holds the
      callbacks of the native app (daemon version, custom CSS). *)

From Stdlib Require Import QArith.
From stdpp Require Import base option list gmap strings fin_maps.

Close Scope Q_scope.
Open Scope string_scope.

(* ===================================================================== *)
(** ** src/ui/settings.ts *)
(* ===================================================================== *)

Module SettingsCard.

(** Nodes of the document are named by numbers; an element carries its
    parent pointer ([null] is [None]) and its attribute table. *)
Record Element := mkElement {
  parentNode : option nat;
  attributes : gmap string string;
}.

Abbreviation Document := (gmap nat Element).

(** [el.getAttribute(name)]: the value, or [null] when the attribute
    is absent. *)
Definition getAttribute (name : string) (el : Element) : option string :=
  attributes el !! name.

Definition setAttribute (name value : string) (el : Element) : Element :=
  mkElement (parentNode el) (<[name := value]> (attributes el)).

Definition removeAttribute (name : string) (el : Element) : Element :=
  mkElement (parentNode el) (delete name (attributes el)).

(** The attribute of a node of the document, as a reader sees it. *)
Definition attributeOf (doc : Document) (node : nat) (name : string)
  : option string :=
  doc !! node ≫= getAttribute name.

(** [onSettingCardClick(header)].  The result is [None] where the
    script throws: the header has no parent, so that [card] is [null]
    and [card.getAttribute] is a TypeError (a node that is not in the
    store is treated the same way). *)
Definition onSettingCardClick (header : nat) (doc : Document)
  : option Document :=
  h ← doc !! header;
  card ← parentNode h;
  c ← doc !! card;
  let isOpen := getAttribute "open" c in
  if decide (isOpen = Some "")
  then Some (<[card := removeAttribute "open" c]> doc)
  else Some (<[card := setAttribute "open" "" c]> doc).

(** Two clicks in a row. *)
Definition clickTwice (header : nat) (doc : Document) : option Document :=
  onSettingCardClick header doc ≫= onSettingCardClick header.

(** *** Facts *)

Lemma parentNode_setAttribute n v el :
  parentNode (setAttribute n v el) = parentNode el.
Proof. reflexivity. Qed.

Lemma parentNode_removeAttribute n el :
  parentNode (removeAttribute n el) = parentNode el.
Proof. reflexivity. Qed.

Lemma remove_after_set n el :
  getAttribute n el = None →
  removeAttribute n (setAttribute n "" el) = el.
Proof.
  destruct el as [p a]; unfold removeAttribute, setAttribute, getAttribute.
  simpl; intros Hn. f_equal. rewrite delete_insert_eq.
  by apply delete_id.
Qed.

Lemma set_after_remove n el :
  getAttribute n el = Some "" →
  setAttribute n "" (removeAttribute n el) = el.
Proof.
  destruct el as [p a]; unfold removeAttribute, setAttribute, getAttribute.
  simpl; intros Hn. f_equal. rewrite insert_delete_eq.
  by apply insert_id.
Qed.

(** One click on a header whose card is in the store: the card is the
    only node that changes, and it changes as the conditional says. *)
Lemma click_once header card h c (doc : Document) :
  doc !! header = Some h →
  parentNode h = Some card →
  doc !! card = Some c →
  onSettingCardClick header doc =
    Some (<[card := if decide (getAttribute "open" c = Some "")
                    then removeAttribute "open" c
                    else setAttribute "open" "" c]> doc).
Proof.
  intros Hh Hp Hc. unfold onSettingCardClick.
  rewrite Hh; simpl. rewrite Hp; simpl. rewrite Hc; simpl.
  by case_decide.
Qed.

(** The header still points at the same card after a click, also when
    the header is its own card. *)
Lemma header_after_click header card h c c' (doc : Document) :
  doc !! header = Some h →
  parentNode h = Some card →
  doc !! card = Some c →
  parentNode c' = parentNode c →
  ∃ h', <[card := c']> doc !! header = Some h' ∧ parentNode h' = Some card.
Proof.
  intros Hh Hp Hc Hpc. destruct (decide (card = header)) as [->|Hne].
  - rewrite lookup_insert_eq. exists c'. split; [done|].
    rewrite Hpc. congruence.
  - rewrite lookup_insert_ne by done. eauto.
Qed.

(** C8. For a header whose card has its [open] attribute absent or
    equal to the empty string: one click flips the presence of the
    attribute (present with the empty value becomes absent, absent
    becomes present with the empty value), and two clicks give back
    the document as it was, so the attribute is exactly as before. *)
Theorem onSettingCardClick_toggle
    (doc : Document) (header card : nat) (h c : Element) :
  doc !! header = Some h →
  parentNode h = Some card →
  doc !! card = Some c →
  getAttribute "open" c = None ∨ getAttribute "open" c = Some "" →
  (∃ doc1,
      onSettingCardClick header doc = Some doc1 ∧
      attributeOf doc1 card "open" =
        match attributeOf doc card "open" with
        | None => Some ""
        | Some _ => None
        end) ∧
  clickTwice header doc = Some doc ∧
  (∀ doc2, clickTwice header doc = Some doc2 →
           attributeOf doc2 card "open" = attributeOf doc card "open").
Proof.
  intros Hh Hp Hc Hopen.
  pose proof (click_once header card h c doc Hh Hp Hc) as H1.
  assert (Htwice : clickTwice header doc = Some doc).
  { unfold clickTwice. rewrite H1; simpl.
    set (c' := if decide (getAttribute "open" c = Some "")
               then removeAttribute "open" c
               else setAttribute "open" "" c) in *.
    assert (Hpc : parentNode c' = parentNode c)
      by (subst c'; by case_decide).
    destruct (header_after_click header card h c c' doc Hh Hp Hc Hpc)
      as (h' & Hh' & Hp').
    rewrite (click_once header card h' c' _ Hh' Hp'
               ltac:(apply lookup_insert_eq)).
    f_equal. rewrite insert_insert_eq. apply insert_id.
    rewrite Hc. f_equal. subst c'.
    destruct Hopen as [Hn|Hs].
    - rewrite (decide_False (P := getAttribute "open" c = Some ""))
        by (rewrite Hn; done).
      rewrite (decide_True (P := getAttribute "open" (setAttribute "open" "" c) = Some ""))
        by (unfold getAttribute; simpl; apply lookup_insert_eq).
      symmetry; by apply remove_after_set.
    - rewrite (decide_True (P := getAttribute "open" c = Some "")) by done.
      rewrite (decide_False (P := getAttribute "open" (removeAttribute "open" c) = Some ""))
        by (unfold getAttribute; simpl; rewrite lookup_delete_eq; done).
      symmetry; by apply set_after_remove. }
  split; [|split; [done|]].
  - eexists; split; [exact H1|].
    unfold attributeOf. rewrite lookup_insert_eq, Hc; simpl.
    destruct Hopen as [Hn|Hs].
    + rewrite decide_False by congruence. rewrite Hn.
      unfold getAttribute; simpl. apply lookup_insert_eq.
    + rewrite decide_True by done. rewrite Hs.
      unfold getAttribute; simpl. apply lookup_delete_eq.
  - intros doc2 H2. rewrite Htwice in H2. by inversion H2.
Qed.

(** A header (node 2) inside a closed card (node 1). *)
Definition closedCard : Document :=
  {[ 1 := mkElement None ∅; 2 := mkElement (Some 1) ∅ ]}.

Lemma onSettingCardClick_toggle_witness :
  clickTwice 2 closedCard = Some closedCard.
Proof.
  refine (proj1 (proj2 (onSettingCardClick_toggle closedCard 2 1
                   (mkElement (Some 1) ∅) (mkElement None ∅) _ _ _ _))).
  - reflexivity.
  - reflexivity.
  - reflexivity.
  - left. reflexivity.
Defined.

(** With any other value the attribute is not restored: the first click
    overwrites the value with the empty string, the second removes the
    attribute. *)
Definition markedCard : Document :=
  {[ 1 := mkElement None {[ "open" := "true" ]};
     2 := mkElement (Some 1) ∅ ]}.

Example clickTwice_marked :
  (clickTwice 2 markedCard ≫= λ doc, Some (attributeOf doc 1 "open"))
  = Some None.
Proof. reflexivity. Qed.

(** A header without a parent: the handler throws. *)
Example click_orphan : onSettingCardClick 1 closedCard = None.
Proof. reflexivity. Qed.

(** *** What a click leaves alone, and what it normalises *)

(** The element that a click leaves in place of the card. *)
Definition clicked (c : Element) : Element :=
  if decide (getAttribute "open" c = Some "")
  then removeAttribute "open" c
  else setAttribute "open" "" c.

Lemma clicked_parentNode c : parentNode (clicked c) = parentNode c.
Proof. unfold clicked. by case_decide. Qed.

Lemma clicked_open c :
  getAttribute "open" (clicked c) =
    if decide (getAttribute "open" c = Some "") then None else Some "".
Proof.
  unfold clicked. case_decide; unfold getAttribute; simpl.
  - apply lookup_delete_eq.
  - apply lookup_insert_eq.
Qed.

Lemma clicked_other name c :
  name ≠ "open" → getAttribute name (clicked c) = getAttribute name c.
Proof.
  intros Hne. unfold clicked. case_decide; unfold getAttribute; simpl.
  - by rewrite lookup_delete_ne.
  - by rewrite lookup_insert_ne.
Qed.

(** Once the attribute is absent or empty, a second click undoes the
    first on the element itself. *)
Lemma clicked_clicked c :
  getAttribute "open" c = None ∨ getAttribute "open" c = Some "" →
  clicked (clicked c) = c.
Proof.
  intros Hopen. unfold clicked at 1. rewrite clicked_open.
  unfold clicked.
  destruct (decide (getAttribute "open" c = Some "")) as [Hs|Hns].
  - rewrite decide_False by done. by apply set_after_remove.
  - rewrite decide_True by done. apply remove_after_set.
    by destruct Hopen.
Qed.

(** A click on a header with a parent element does not throw, and it
    touches nothing but the [open] attribute of that parent: every
    other node, the parent pointer of the card, and every other
    attribute of the card are as before. *)
Theorem onSettingCardClick_frame
    (doc : Document) (header card : nat) (h c : Element) :
  doc !! header = Some h →
  parentNode h = Some card →
  doc !! card = Some c →
  ∃ doc1 c1,
    onSettingCardClick header doc = Some doc1 ∧
    doc1 !! card = Some c1 ∧
    parentNode c1 = parentNode c ∧
    (∀ name, name ≠ "open" → getAttribute name c1 = getAttribute name c) ∧
    (∀ node, node ≠ card → doc1 !! node = doc !! node) ∧
    dom doc1 = dom doc.
Proof.
  intros Hh Hp Hc. eexists _, (clicked c).
  split; [exact (click_once header card h c doc Hh Hp Hc)|].
  fold (clicked c).
  split; [apply lookup_insert_eq|].
  split; [apply clicked_parentNode|].
  split; [intros name Hne; by apply clicked_other|].
  split; [intros node Hne; by rewrite lookup_insert_ne|].
  apply dom_insert_lookup_L. by exists c.
Qed.

Lemma onSettingCardClick_frame_witness :
  ∃ doc1 c1,
    onSettingCardClick 2 markedCard = Some doc1 ∧
    doc1 !! 1 = Some c1 ∧
    parentNode c1 = None ∧
    doc1 !! 2 = markedCard !! 2.
Proof.
  destruct (onSettingCardClick_frame markedCard 2 1
              (mkElement (Some 1) ∅) (mkElement None {[ "open" := "true" ]})
              eq_refl eq_refl eq_refl)
    as (doc1 & c1 & H1 & H2 & H3 & _ & H5 & _).
  exists doc1, c1. split; [exact H1|]. split; [exact H2|].
  split; [exact H3|]. apply H5. discriminate.
Defined.

(** Three clicks in a row. *)
Definition clickThrice (header : nat) (doc : Document) : option Document :=
  onSettingCardClick header doc ≫= clickTwice header.

(** Whatever value the [open] attribute of the card has, one click
    leaves it absent (if it was the empty string) or empty (in every
    other case, a non-empty value included); from then on clicks
    toggle, so that three clicks do what one click does. *)
Theorem onSettingCardClick_normalises
    (doc : Document) (header card : nat) (h c : Element) :
  doc !! header = Some h →
  parentNode h = Some card →
  doc !! card = Some c →
  (∃ doc1,
      onSettingCardClick header doc = Some doc1 ∧
      attributeOf doc1 card "open" =
        if decide (getAttribute "open" c = Some "") then None else Some "") ∧
  clickThrice header doc = onSettingCardClick header doc.
Proof.
  intros Hh Hp Hc.
  pose proof (click_once header card h c doc Hh Hp Hc) as H1.
  fold (clicked c) in H1.
  split.
  - eexists; split; [exact H1|].
    unfold attributeOf. rewrite lookup_insert_eq; simpl. apply clicked_open.
  - unfold clickThrice. rewrite H1; simpl.
    destruct (header_after_click header card h c (clicked c) doc Hh Hp Hc
                (clicked_parentNode c)) as (h1 & Hh1 & Hp1).
    unfold clickTwice.
    rewrite (click_once header card h1 (clicked c) _ Hh1 Hp1
               ltac:(apply lookup_insert_eq)); simpl.
    fold (clicked (clicked c)). rewrite insert_insert_eq.
    assert (Hh2 : ∃ h2, <[card := clicked (clicked c)]> doc !! header = Some h2
                        ∧ parentNode h2 = Some card).
    { apply (header_after_click header card h c); try done.
      by rewrite !clicked_parentNode. }
    destruct Hh2 as (h2 & Hh2 & Hp2).
    rewrite (click_once header card h2 (clicked (clicked c)) _ Hh2 Hp2
               ltac:(apply lookup_insert_eq)).
    fold (clicked (clicked (clicked c))). rewrite insert_insert_eq.
    do 2 f_equal. apply clicked_clicked.
    rewrite clicked_open. case_decide; auto.
Qed.

Lemma onSettingCardClick_normalises_witness :
  clickThrice 2 markedCard = onSettingCardClick 2 markedCard.
Proof.
  exact (proj2 (onSettingCardClick_normalises markedCard 2 1
                  (mkElement (Some 1) ∅)
                  (mkElement None {[ "open" := "true" ]})
                  eq_refl eq_refl eq_refl)).
Defined.

End SettingsCard.

(* ===================================================================== *)
(** ** The settings page script: openDialog and closeDialog *)
(* ===================================================================== *)

Module SettingsPage.

(** The page creates exactly two [Dialog] objects. *)
Inductive Dialog := colorpicker | themepicker.

#[global] Instance Dialog_eq_dec : EqDecision Dialog.
Proof. solve_decision. Defined.

Section page.

(** The classes [Dialog], [Colorpicker] and [Themepicker] are
    imported by the script; what their methods do to the dialog
    objects is left open: [Dialogs] is the joint state of the two
    objects, and [dialog_open], [dialog_close] and [getTarget] are
    any functions on it.  [HTMLElement] is the type of element
    references ([null] included), compared by identity. *)
Context {HTMLElement : Type} `{EqDecision HTMLElement}.
Context {Dialogs : Type}.
Variable dialog_open : Dialog → HTMLElement → Dialogs → Dialogs.
Variable dialog_close : Dialog → Dialogs → Dialogs.
Variable getTarget : Dialog → Dialogs → HTMLElement.

(** [isOpen], [open] and [close] come from [./utils], which is not at
    hand either: [Overlay] is the state of the overlay element, and
    all that is asked of the three functions is that an element just
    opened is open and an element just closed is not. *)
Context {Overlay : Type}.
Variable isOpen : Overlay → bool.
Variable open : Overlay → Overlay.
Variable close : Overlay → Overlay.
Hypothesis isOpen_open : ∀ o, isOpen (open o) = true.
Hypothesis isOpen_close : ∀ o, isOpen (close o) = false.

(** The variables of the script that the two functions touch. *)
Record Page := mkPage {
  currentDialog : option Dialog;
  overlay : Overlay;
  dialogs : Dialogs;
}.

(** [if (isOpen(overlay)) close(overlay)] *)
Definition hideOverlay (p : Page) : Page :=
  if isOpen (overlay p)
  then mkPage (currentDialog p) (close (overlay p)) (dialogs p)
  else p.

(** [if (!isOpen(overlay)) open(overlay)] *)
Definition showOverlay (p : Page) : Page :=
  if negb (isOpen (overlay p))
  then mkPage (currentDialog p) (open (overlay p)) (dialogs p)
  else p.

Definition closeDialog (p : Page) : Page :=
  let p1 :=
    match currentDialog p with
    | Some d => mkPage None (overlay p) (dialog_close d (dialogs p))
    | None => p
    end in
  hideOverlay p1.

Definition openDialog (dialog : Dialog) (target : HTMLElement) (p : Page)
  : Page :=
  let p1 := showOverlay p in
  let openIt (q : Page) : Page :=
    mkPage (Some dialog) (overlay q)
           (dialog_open dialog target (dialogs q)) in
  match currentDialog p1 with
  | Some cur =>
      if decide (cur = dialog) then
        if bool_decide (dialog ≠ colorpicker)
           || bool_decide (getTarget cur (dialogs p1) = target)
        then closeDialog p1
        else openIt p1
      else
        openIt (mkPage (currentDialog p1) (overlay p1)
                       (dialog_close cur (dialogs p1)))
  | None => openIt p1
  end.

(** What the user can make the page do. *)
Inductive Call :=
| CallOpen (dialog : Dialog) (target : HTMLElement)
| CallClose.

Definition call (p : Page) (c : Call) : Page :=
  match c with
  | CallOpen d t => openDialog d t p
  | CallClose => closeDialog p
  end.

Definition run (calls : list Call) (p : Page) : Page :=
  foldl call p calls.

(** The overlay is shown exactly when a dialog is current. *)
Definition consistent (p : Page) : Prop :=
  isOpen (overlay p) = true ↔ currentDialog p ≠ None.

(** *** Facts *)

Lemma hideOverlay_spec p :
  isOpen (overlay (hideOverlay p)) = false ∧
  currentDialog (hideOverlay p) = currentDialog p ∧
  dialogs (hideOverlay p) = dialogs p.
Proof.
  unfold hideOverlay. destruct (isOpen (overlay p)) eqn:Ho; simpl; auto.
Qed.

Lemma showOverlay_spec p :
  isOpen (overlay (showOverlay p)) = true ∧
  currentDialog (showOverlay p) = currentDialog p ∧
  dialogs (showOverlay p) = dialogs p.
Proof.
  unfold showOverlay. destruct (isOpen (overlay p)) eqn:Ho; simpl; auto.
Qed.

Lemma showOverlay_shown p :
  isOpen (overlay p) = true → showOverlay p = p.
Proof. intros Ho. unfold showOverlay. by rewrite Ho. Qed.

Lemma closeDialog_closed p :
  currentDialog (closeDialog p) = None ∧
  isOpen (overlay (closeDialog p)) = false.
Proof.
  unfold closeDialog.
  match goal with
  | |- context [hideOverlay ?q] =>
      destruct (hideOverlay_spec q) as (Ho & Hc & _); rewrite Hc, Ho
  end.
  split; [|done]. by destruct (currentDialog p) eqn:E.
Qed.

Lemma closeDialog_dialogs p d :
  currentDialog p = Some d →
  dialogs (closeDialog p) = dialog_close d (dialogs p).
Proof.
  intros Hc. unfold closeDialog. rewrite Hc.
  match goal with
  | |- context [hideOverlay ?q] =>
      destruct (hideOverlay_spec q) as (_ & _ & Hd); by rewrite Hd
  end.
Qed.

Lemma closeDialog_consistent p : consistent (closeDialog p).
Proof.
  destruct (closeDialog_closed p) as [Hc Ho].
  unfold consistent. rewrite Hc, Ho. split; [discriminate|congruence].
Qed.

(** [openDialog] ends in one of two ways: through [closeDialog], or
    with the overlay shown and the requested dialog current. *)
Lemma openDialog_cases dialog target p :
  (currentDialog (openDialog dialog target p) = None ∧
   isOpen (overlay (openDialog dialog target p)) = false) ∨
  (currentDialog (openDialog dialog target p) = Some dialog ∧
   isOpen (overlay (openDialog dialog target p)) = true).
Proof.
  unfold openDialog.
  destruct (showOverlay_spec p) as (Ho & _ & _).
  destruct (currentDialog (showOverlay p)) as [cur|]; [|by right].
  destruct (decide (cur = dialog)); [|by right].
  match goal with
  | |- context [if ?b then _ else _] => destruct b
  end; [left; apply closeDialog_closed | by right].
Qed.

Lemma openDialog_consistent dialog target p :
  consistent (openDialog dialog target p).
Proof.
  unfold consistent.
  destruct (openDialog_cases dialog target p) as [[Hc Ho]|[Hc Ho]];
    rewrite Hc, Ho; split; congruence.
Qed.

Lemma run_snoc calls c p : run (calls ++ [c]) p = call (run calls p) c.
Proof. unfold run. by rewrite foldl_app. Qed.

Lemma run_consistent calls p : consistent p → consistent (run calls p).
Proof.
  intros Hp. induction calls as [|c calls IH] using rev_ind; [done|].
  rewrite run_snoc. destruct c; simpl.
  - apply openDialog_consistent.
  - apply closeDialog_consistent.
Qed.

(** Asking for the dialog that is current closes it. *)
Lemma openDialog_current dialog target p :
  consistent p →
  currentDialog p = Some dialog →
  dialog ≠ colorpicker ∨ getTarget dialog (dialogs p) = target →
  currentDialog (openDialog dialog target p) = None ∧
  isOpen (overlay (openDialog dialog target p)) = false ∧
  dialogs (openDialog dialog target p) = dialog_close dialog (dialogs p).
Proof.
  intros Hcons Hc Hsame.
  assert (Ho : isOpen (overlay p) = true) by (apply Hcons; congruence).
  unfold openDialog. rewrite (showOverlay_shown p Ho), Hc.
  rewrite decide_True by done.
  assert (Hb : bool_decide (dialog ≠ colorpicker)
               || bool_decide (getTarget dialog (dialogs p) = target) = true).
  { destruct Hsame as [Hne|Heq].
    - by rewrite (bool_decide_eq_true_2 _ Hne).
    - rewrite (bool_decide_eq_true_2 _ Heq). apply orb_true_r. }
  rewrite Hb.
  destruct (closeDialog_closed p) as [H1 H2].
  split; [done|]. split; [done|]. by apply closeDialog_dialogs.
Qed.

(** C7. Starting from the page as loaded (no current dialog, overlay
    closed), after any finite sequence of [openDialog] and
    [closeDialog] calls the overlay is open if and only if a dialog
    is current; and in any such state, [openDialog] on the dialog
    that is current (for the colorpicker: with the target it has)
    closes that dialog and the overlay. *)
Theorem overlay_follows_currentDialog
    (calls : list Call) (o : Overlay) (ds : Dialogs) :
  isOpen o = false →
  let p := run calls (mkPage None o ds) in
  (isOpen (overlay p) = true ↔ currentDialog p ≠ None) ∧
  ∀ dialog target,
    currentDialog p = Some dialog →
    dialog ≠ colorpicker ∨ getTarget dialog (dialogs p) = target →
    let p' := openDialog dialog target p in
    currentDialog p' = None ∧ isOpen (overlay p') = false ∧
    dialogs p' = dialog_close dialog (dialogs p).
Proof.
  intros Hclosed p.
  assert (Hp : consistent p).
  { apply run_consistent. unfold consistent; simpl. rewrite Hclosed.
    split; [discriminate|congruence]. }
  split; [exact Hp|].
  intros dialog target Hc Hsame. by apply openDialog_current.
Qed.

(** *** More on the two functions *)

(** From any state, consistent or not, [closeDialog] (the click on the
    overlay) leaves no current dialog and a closed overlay, and a
    second call changes nothing. *)
Theorem closeDialog_idempotent (p : Page) :
  currentDialog (closeDialog p) = None ∧
  isOpen (overlay (closeDialog p)) = false ∧
  closeDialog (closeDialog p) = closeDialog p.
Proof.
  destruct (closeDialog_closed p) as [Hc Ho].
  split; [done|]. split; [done|].
  unfold closeDialog at 1. rewrite Hc. unfold hideOverlay. by rewrite Ho.
Qed.


(** The second click on a colour button.  [getTarget] is taken to give
    back the target that the colorpicker was opened on. *)
Hypothesis getTarget_open :
  ∀ t ds, getTarget colorpicker (dialog_open colorpicker t ds) = t.

(** With the colorpicker not current, a click on a colour button opens
    it there; a second click on the same button closes dialog and
    overlay; a click on another colour button moves the colorpicker
    to that button without closing it in between. *)
Theorem colorpicker_twice (t1 t2 : HTMLElement) (p : Page) :
  currentDialog p ≠ Some colorpicker →
  let p1 := openDialog colorpicker t1 p in
  let p2 := openDialog colorpicker t2 p1 in
  currentDialog p1 = Some colorpicker ∧
  (t1 = t2 →
   currentDialog p2 = None ∧ isOpen (overlay p2) = false ∧
   dialogs p2 = dialog_close colorpicker (dialogs p1)) ∧
  (t1 ≠ t2 →
   currentDialog p2 = Some colorpicker ∧ isOpen (overlay p2) = true ∧
   dialogs p2 = dialog_open colorpicker t2 (dialogs p1)).
Proof.
  intros Hcur p1 p2.
  destruct (showOverlay_spec p) as (Hso & Hsc & Hsd).
  assert (H1 : p1 = mkPage (Some colorpicker) (overlay (showOverlay p))
                      (dialog_open colorpicker t1
                         (match currentDialog p with
                          | Some cur => dialog_close cur (dialogs p)
                          | None => dialogs p
                          end))).
  { subst p1. unfold openDialog. rewrite Hsc, Hsd.
    destruct (currentDialog p) as [cur|] eqn:E; [|done].
    rewrite decide_False by congruence. done. }
  assert (Ho1 : isOpen (overlay p1) = true) by (rewrite H1; exact Hso).
  assert (Hc1 : currentDialog p1 = Some colorpicker) by (by rewrite H1).
  assert (Ht1 : getTarget colorpicker (dialogs p1) = t1)
    by (rewrite H1; apply getTarget_open).
  split; [done|]. split.
  - intros <-. apply openDialog_current; [|done|by right].
    unfold consistent. rewrite Ho1, Hc1. split; congruence.
  - intros Hne. subst p2. unfold openDialog.
    rewrite (showOverlay_shown p1 Ho1), Hc1.
    rewrite decide_True by done.
    rewrite (bool_decide_eq_false_2 (colorpicker ≠ colorpicker)) by auto.
    rewrite bool_decide_eq_false_2 by congruence. simpl. done.
Qed.

(** Which dialogs are shown.  [dialog_isOpen] reads whether a dialog
    object is shown; opening or closing a dialog is taken to set that
    for the dialog itself and to leave the other dialog alone. *)
Variable dialog_isOpen : Dialog → Dialogs → bool.
Hypothesis dialog_isOpen_open : ∀ d t ds d',
  dialog_isOpen d' (dialog_open d t ds) =
    if decide (d' = d) then true else dialog_isOpen d' ds.
Hypothesis dialog_isOpen_close : ∀ d ds d',
  dialog_isOpen d' (dialog_close d ds) =
    if decide (d' = d) then false else dialog_isOpen d' ds.

(** A dialog is shown exactly when it is the current one. *)
Definition onlyCurrentShown (p : Page) : Prop :=
  ∀ d, dialog_isOpen d (dialogs p) = true ↔ currentDialog p = Some d.

Lemma hideOverlay_onlyCurrentShown p :
  onlyCurrentShown p → onlyCurrentShown (hideOverlay p).
Proof. unfold onlyCurrentShown, hideOverlay. by destruct (isOpen _). Qed.

Lemma showOverlay_onlyCurrentShown p :
  onlyCurrentShown p → onlyCurrentShown (showOverlay p).
Proof. unfold onlyCurrentShown, showOverlay. by destruct (negb _). Qed.

Lemma closeDialog_onlyCurrentShown p :
  onlyCurrentShown p → onlyCurrentShown (closeDialog p).
Proof.
  intros Hp. unfold closeDialog. apply hideOverlay_onlyCurrentShown.
  destruct (currentDialog p) as [cur|] eqn:E; [|done].
  intros d; simpl. rewrite dialog_isOpen_close.
  case_decide as Hd; [split; discriminate|].
  rewrite (Hp d), E. split; [congruence|discriminate].
Qed.

Lemma openDialog_onlyCurrentShown dialog target p :
  onlyCurrentShown p → onlyCurrentShown (openDialog dialog target p).
Proof.
  intros Hp0. apply showOverlay_onlyCurrentShown in Hp0.
  unfold openDialog. set (p1 := showOverlay p) in *.
  assert (Hopen : ∀ ds,
             (∀ d, d ≠ dialog → dialog_isOpen d ds = false) →
             onlyCurrentShown (mkPage (Some dialog) (overlay p1)
                                 (dialog_open dialog target ds))).
  { intros ds Hds d; simpl. rewrite dialog_isOpen_open.
    case_decide as Hd; [split; congruence|].
    rewrite (Hds d Hd). split; [discriminate|congruence]. }
  destruct (currentDialog p1) as [cur|] eqn:E.
  - destruct (decide (cur = dialog)) as [->|Hne].
    + match goal with
      | |- context [if ?b then _ else _] => destruct b
      end.
      * by apply closeDialog_onlyCurrentShown.
      * apply Hopen. intros d Hd.
        destruct (dialog_isOpen d (dialogs p1)) eqn:Hs; [|done].
        apply Hp0 in Hs. congruence.
    + apply Hopen. intros d Hd; simpl. rewrite dialog_isOpen_close.
      case_decide as Hdc; [done|].
      destruct (dialog_isOpen d (dialogs p1)) eqn:Hs; [|done].
      apply Hp0 in Hs. congruence.
  - apply Hopen. intros d Hd.
    destruct (dialog_isOpen d (dialogs p1)) eqn:Hs; [|done].
    apply Hp0 in Hs. congruence.
Qed.

(** Starting with no current dialog and no dialog shown, after any
    sequence of [openDialog] and [closeDialog] calls a dialog is shown
    exactly when it is the current one: at most one dialog is shown at
    a time, and none once [currentDialog] is null. *)
Theorem one_dialog_shown (calls : list Call) (o : Overlay) (ds : Dialogs) :
  (∀ d, dialog_isOpen d ds = false) →
  let p := run calls (mkPage None o ds) in
  ∀ d, dialog_isOpen d (dialogs p) = true ↔ currentDialog p = Some d.
Proof.
  intros Hds p. subst p.
  induction calls as [|c calls IH] using rev_ind.
  - intros d; simpl. rewrite Hds. split; discriminate.
  - rewrite run_snoc. destruct c; simpl.
    + by apply openDialog_onlyCurrentShown.
    + by apply closeDialog_onlyCurrentShown.
Qed.

End page.

(** A concrete page: element references are numbers, each dialog object
    is reduced to the target it was last opened on ([None] once
    closed), the colorpicker first, and the overlay to a flag. *)
Definition sampleOpen (d : Dialog) (t : option nat)
    (ds : option nat * option nat) : option nat * option nat :=
  match d with
  | colorpicker => (t, ds.2)
  | themepicker => (ds.1, t)
  end.

Definition sampleClose (d : Dialog) (ds : option nat * option nat)
  : option nat * option nat :=
  sampleOpen d None ds.

Definition sampleTarget (d : Dialog) (ds : option nat * option nat)
  : option nat :=
  match d with
  | colorpicker => ds.1
  | themepicker => ds.2
  end.

Definition sampleOpenDialog :=
  openDialog sampleOpen sampleClose sampleTarget
             (λ o : bool, o) (λ _, true) (λ _, false).

Definition sampleRun :=
  run sampleOpen sampleClose sampleTarget
      (λ o : bool, o) (λ _, true) (λ _, false).

(** The theme button, then a colour button (element 7): the
    themepicker gives way to the colorpicker. *)
Definition sampleCalls : list (@Call (option nat)) :=
  [CallOpen themepicker (Some 1); CallOpen colorpicker (Some 7)].

Lemma overlay_follows_currentDialog_witness :
  let p := sampleRun sampleCalls (mkPage None false (None, None)) in
  currentDialog (sampleOpenDialog colorpicker (Some 7) p) = None ∧
  overlay (sampleOpenDialog colorpicker (Some 7) p) = false.
Proof.
  intros p.
  destruct (proj2 (overlay_follows_currentDialog
                     sampleOpen sampleClose sampleTarget
                     (λ o : bool, o) (λ _, true) (λ _, false)
                     (λ _, eq_refl) (λ _, eq_refl)
                     sampleCalls false (None, None) eq_refl)
                  colorpicker (Some 7))
    as (H1 & H2 & _).
  - reflexivity.
  - right. reflexivity.
  - split; [exact H1 | exact H2].
Defined.

(** The colorpicker asked for on another colour button moves there
    instead of closing. *)
Example colorpicker_other_target :
  let p := sampleRun sampleCalls (mkPage None false (None, None)) in
  currentDialog (sampleOpenDialog colorpicker (Some 8) p) = Some colorpicker ∧
  overlay (sampleOpenDialog colorpicker (Some 8) p) = true.
Proof. split; reflexivity. Qed.

Definition sampleCloseDialog :=
  closeDialog sampleClose (λ o : bool, o) (λ _, false).

Lemma closeDialog_idempotent_witness :
  let p := mkPage (Some themepicker) true (None, Some 1) in
  sampleCloseDialog (sampleCloseDialog p) = sampleCloseDialog p.
Proof.
  intros p.
  exact (proj2 (proj2 (closeDialog_idempotent sampleClose
                         (λ o : bool, o) (λ _, false) (λ _, eq_refl) p))).
Defined.

Lemma colorpicker_twice_witness :
  let p := mkPage None false (None, None) in
  currentDialog (sampleOpenDialog colorpicker (Some 7)
                   (sampleOpenDialog colorpicker (Some 7) p)) = None ∧
  currentDialog (sampleOpenDialog colorpicker (Some 8)
                   (sampleOpenDialog colorpicker (Some 7) p))
    = Some colorpicker.
Proof.
  intros p. split.
  - refine (proj1 (proj1 (proj2 (colorpicker_twice
              sampleOpen sampleClose sampleTarget
              (λ o : bool, o) (λ _, true) (λ _, false)
              (λ _, eq_refl) (λ _, eq_refl) (λ _ _, eq_refl)
              (Some 7) (Some 7) p _)) eq_refl)).
    discriminate.
  - refine (proj1 (proj2 (proj2 (colorpicker_twice
              sampleOpen sampleClose sampleTarget
              (λ o : bool, o) (λ _, true) (λ _, false)
              (λ _, eq_refl) (λ _, eq_refl) (λ _ _, eq_refl)
              (Some 7) (Some 8) p _)) _)).
    + discriminate.
    + discriminate.
Defined.

(** A page whose dialog objects are reduced to their shown flags. *)
Definition flagOpen (d : Dialog) (t : option nat) (ds : Dialog → bool)
  : Dialog → bool :=
  λ d', if decide (d' = d) then true else ds d'.

Definition flagClose (d : Dialog) (ds : Dialog → bool) : Dialog → bool :=
  λ d', if decide (d' = d) then false else ds d'.

Definition flagShown (d : Dialog) (ds : Dialog → bool) : bool := ds d.

Lemma one_dialog_shown_witness :
  let p := run flagOpen flagClose (λ _ _, None)
               (λ o : bool, o) (λ _, true) (λ _, false)
               sampleCalls (mkPage None false (λ _, false)) in
  flagShown colorpicker (dialogs p) = true ∧
  flagShown themepicker (dialogs p) = false.
Proof.
  intros p.
  pose proof (one_dialog_shown flagOpen flagClose (λ _ _, None)
                (λ o : bool, o) (λ _, true) (λ _, false) flagShown
                (λ _ _ _ _, eq_refl) (λ _ _ _, eq_refl)
                sampleCalls false (λ _, false) (λ _, eq_refl)) as H.
  split.
  - apply (H colorpicker). reflexivity.
  - destruct (flagShown themepicker (dialogs p)) eqn:E; [|reflexivity].
    apply (H themepicker) in E. discriminate.
Defined.

End SettingsPage.

(* ===================================================================== *)
(** ** The background script: class Extension *)
(* ===================================================================== *)

Module Background.

(** *** Values *)

(** An optional parameter or nullable reference of object type: left
    out ([undefined]), [null], or an object. *)
Inductive Nullable (A : Type) : Type :=
| undefined
| null
| object (a : A).
Arguments undefined {A}.
Arguments null {A}.
Arguments object {A} a.

(** What a getter of the state hands out: [null] or the object. *)
Definition ofState {A} (o : option A) : Nullable A :=
  match o with
  | Some a => object a
  | None => null
  end.

(** [v ? v : null]: objects are truthy, [undefined] and [null] are not. *)
Definition orNull {A} (v : Nullable A) : option A :=
  match v with
  | object a => Some a
  | undefined | null => None
  end.

(** A JavaScript number: a double is a rational, an infinity or NaN. *)
Inductive number :=
| finite (q : Q)
| NaN
| Infinity
| negInfinity.

(** [v >= k] and [v <= k] for a finite constant [k]; every comparison
    with NaN is false. *)
Definition geq (v : number) (k : Q) : bool :=
  match v with
  | finite q => Qle_bool k q
  | Infinity => true
  | NaN | negInfinity => false
  end.

Definition leq (v : number) (k : Q) : bool :=
  match v with
  | finite q => Qle_bool q k
  | negInfinity => true
  | NaN | Infinity => false
  end.

(** [IPywalColors] is an array of colour strings; a palette
    ([Partial<IPalette>]) is an object from colour names to colour
    strings; a palette template names, for each colour, an index into
    the pywal colours. *)
Abbreviation IPywalColors := (list string).
Abbreviation IPalette := (gmap string string).
Abbreviation IPaletteTemplate := (gmap string Z).

Inductive CSSTargets := UserChrome | UserContent.

(** The two extension pages, [EXTENSION_PAGES.SETTINGS] and
    [EXTENSION_PAGES.UPDATE]. *)
Inductive ExtensionPage := SETTINGS | UPDATE.

(** [IOptionSetData]; [value] is [None] when the field is undefined. *)
Record IOptionSetData := mkOptionSetData {
  option_ : string;
  enabled : bool;
  value : option number;
}.

(** [pywalColors[index]], where [index] itself may be undefined: out
    of range, negative and undefined indices all read [undefined]. *)
Definition pywalColorAt (pywalColors : IPywalColors) (index : option Z)
  : option string :=
  i ← index;
  if decide (0 ≤ i)%Z then pywalColors !! Z.to_nat i else None.

(** One round of the loop of [applyUpdatedPaletteTemplate]:
    [if (pywalColors[template[color]] === customColors[color])
       delete customColors[color]]. *)
Definition dropTemplateColor (pywalColors : IPywalColors)
    (template : IPaletteTemplate) (customColors : IPalette)
    (color : string) : IPalette :=
  if decide (pywalColorAt pywalColors (template !! color)
             = customColors !! color)
  then delete color customColors
  else customColors.

(** [for (const color in customColors) ...]: the keys are fixed when
    the loop starts, the body works on the object as it is by then. *)
Definition forIn (body : IPalette → string → IPalette)
    (keys : list string) (customColors : IPalette) : IPalette :=
  foldl body customColors keys.

Definition dropTemplateColors (pywalColors : IPywalColors)
    (template : IPaletteTemplate) (customColors : IPalette) : IPalette :=
  forIn (dropTemplateColor pywalColors template)
        (map_to_list customColors).*1 customColors.

Section extension.

(** The theme types and the colorscheme template come from
    [definitions], which is not at hand: they stay abstract. *)
Context {IBrowserTheme IExtensionTheme IDuckDuckGoTheme : Type}.
Context {IColorschemeTemplate : Type}.

(** [IColorscheme], with the fields the class reads. *)
Record IColorscheme := mkColorscheme {
  hash : string;
  browser : IBrowserTheme;
  extension : IExtensionTheme;
  duckduckgo : IDuckDuckGoTheme;
}.

(** The two functions of [./colorscheme] that the pipeline uses. *)
Variable extendPywalColors : IPywalColors → IPywalColors.
Variable generateColorscheme :
  IPywalColors → Nullable IPalette → IColorschemeTemplate → IColorscheme.

(** Modelled from the spec: class [State] of [./state] is missing;
    it is the flat persisted settings object, here with the fields
    that the methods below read or write.  Every setter overwrites
    its field (and persists the object), every getter reads it;
    [load] replaces the object by what was persisted. *)
Record State := mkState {
  isApplied : bool;
  pywalColors : option IPywalColors;
  colorscheme : option IColorscheme;
  customColors : option IPalette;
  template : IColorschemeTemplate;
  ddgThemeEnabled : bool;
  cssFontSize : number;
}.

(** Modelled from the spec: the setters of [State], one per field
    ([setColors] writes the pywal colours and the colorscheme
    together), and [load]. *)
Definition state_setColors (p : option IPywalColors)
    (c : option IColorscheme) (s : State) : State :=
  mkState (isApplied s) p c (customColors s) (template s)
          (ddgThemeEnabled s) (cssFontSize s).

Definition state_setCustomColors (c : option IPalette) (s : State)
  : State :=
  mkState (isApplied s) (pywalColors s) (colorscheme s) c (template s)
          (ddgThemeEnabled s) (cssFontSize s).

Definition state_setApplied (b : bool) (s : State) : State :=
  mkState b (pywalColors s) (colorscheme s) (customColors s) (template s)
          (ddgThemeEnabled s) (cssFontSize s).

Definition state_setDDGThemeEnabled (b : bool) (s : State) : State :=
  mkState (isApplied s) (pywalColors s) (colorscheme s) (customColors s)
          (template s) b (cssFontSize s).

Definition state_setCssFontSize (n : number) (s : State) : State :=
  mkState (isApplied s) (pywalColors s) (colorscheme s) (customColors s)
          (template s) (ddgThemeEnabled s) n.

Definition state_load (persisted : State) (s : State) : State :=
  persisted.

(** Calls that leave the background script, in the order made. *)
Inductive Effect :=
| BrowserThemeUpdate (colors : IBrowserTheme)
| BrowserThemeReset
| PageCreate (page : ExtensionPage)
| PageSetTheme (page : ExtensionPage) (theme : option IExtensionTheme)
| DDGSetTheme (hash : string) (theme : IDuckDuckGoTheme)
| DDGResetTheme
| UISendDebuggingOutput (message : string) (error : option bool)
| UISendNotification (title message : string) (error : option bool)
| UISendPywalColors (colors : IPywalColors)
| UISendCustomColors (colors : Nullable IPalette)
| UISendOption (option : string) (enabled : bool)
| UISendFontSize (size : number)
| NativeConnect
| NativeRequestFontSizeSet (target : CSSTargets) (size : number)
| ConsoleLog (message : string).

(** *** The monad of the methods: the state threaded through, the
    calls appended to a log *)

Definition Action (A : Type) : Type := State → A * State * list Effect.

#[local] Instance action_ret : MRet Action :=
  λ A a s, (a, s, []).

#[local] Instance action_bind : MBind Action :=
  λ A B f m s,
    let '(a, s1, log1) := m s in
    let '(b, s2, log2) := f a s1 in
    (b, s2, (log1 ++ log2)%list).

Definition gets {A} (f : State → A) : Action A := λ s, (f s, s, []).
Definition modify (f : State → State) : Action unit := λ s, (tt, f s, []).
Definition call (e : Effect) : Action unit := λ s, (tt, s, [e]).
Definition skip : Action unit := mret tt.

Definition stateAfter {A} (r : A * State * list Effect) : State := r.1.2.
Definition logOf {A} (r : A * State * list Effect) : list Effect := r.2.

(** *** Methods of [Extension] *)

Definition updateExtensionPagesTheme
    (extensionTheme : option IExtensionTheme) : Action unit :=
  call (PageSetTheme SETTINGS extensionTheme);;
  call (PageSetTheme UPDATE extensionTheme).

Definition setBrowserTheme (browserTheme : IBrowserTheme) : Action unit :=
  call (BrowserThemeUpdate browserTheme).

Definition resetThemes : Action unit :=
  call BrowserThemeReset;;
  updateExtensionPagesTheme None;;
  ddg ← gets ddgThemeEnabled;
  (if ddg : bool then call DDGResetTheme else skip);;
  modify (state_setColors None None);;
  modify (state_setCustomColors None);;
  modify (state_setApplied false);;
  call (UISendDebuggingOutput "Theme was disabled" None).

Definition updateThemes (pywalColors : IPywalColors)
    (customColors : Nullable IPalette) : Action unit :=
  template ← gets template;
  let colorscheme := generateColorscheme pywalColors customColors template in
  setBrowserTheme (browser colorscheme);;
  updateExtensionPagesTheme (Some (extension colorscheme));;
  ddg ← gets ddgThemeEnabled;
  (if ddg : bool
   then call (DDGSetTheme (hash colorscheme) (duckduckgo colorscheme))
   else skip);;
  modify (state_setColors (Some pywalColors) (Some colorscheme));;
  modify (state_setCustomColors (orNull customColors));;
  modify (state_setApplied true).

Definition applyUpdatedPaletteTemplate (template : IPaletteTemplate)
  : Action unit :=
  pywalColors ← gets pywalColors;
  customColors ← gets customColors;
  match pywalColors with
  | None => skip
  | Some pywalColors =>
      let customColors :=
        dropTemplateColors pywalColors template <$> customColors in
      updateThemes pywalColors (ofState customColors);;
      call (UISendCustomColors (ofState customColors))
  end.

Definition applyDuckDuckGoTheme : Action unit :=
  colorscheme ← gets colorscheme;
  match colorscheme with
  | Some colorscheme =>
      call (DDGSetTheme (hash colorscheme) (duckduckgo colorscheme))
  | None => skip
  end.

Definition setDDGEnabled (data : IOptionSetData) : Action unit :=
  isEnabled ← gets ddgThemeEnabled;
  (if enabled data && negb isEnabled then applyDuckDuckGoTheme
   else if negb (enabled data) && isEnabled then call DDGResetTheme
   else skip);;
  call (UISendOption (option_ data) (enabled data));;
  modify (state_setDDGThemeEnabled (enabled data)).

Definition setDDGTheme : Action unit :=
  isEnabled ← gets ddgThemeEnabled;
  if isEnabled : bool then applyDuckDuckGoTheme else call DDGResetTheme.

Definition setCssFontSize (data : IOptionSetData) : Action unit :=
  let invalid :=
    call (UISendNotification "Font size error" "Invalid size or not set"
                             (Some true)) in
  match value data with
  | Some value =>
      if geq value (10 # 1) && leq value (20 # 1)
      then call (NativeRequestFontSizeSet UserChrome value)
      else invalid
  | None => invalid
  end.

Definition cssFontSizeSetSuccess (size : number) : Action unit :=
  call (UISendNotification "Restart needed"
                           "Updated base font size successfully" None);;
  call (UISendFontSize size);;
  modify (state_setCssFontSize size).

Definition setSavedColorscheme (colorscheme : IColorscheme) : Action unit :=
  call (ConsoleLog "Applying saved colorscheme");;
  setBrowserTheme (browser colorscheme);;
  updateExtensionPagesTheme (Some (extension colorscheme));;
  modify (state_setApplied true).

Definition onPywalColorsReceived (pywalColors : IPywalColors)
  : Action unit :=
  let colors := extendPywalColors pywalColors in
  call (UISendDebuggingOutput
          "Pywal colors was fetched from daemon and applied successfully"
          None);;
  call (UISendPywalColors colors);;
  updateThemes colors undefined.

(** [start()]; [persisted] is what [state.load()] finds in storage. *)
Definition start (persisted : State) : Action unit :=
  modify (state_load persisted);;
  call (PageCreate SETTINGS);;
  call (PageCreate UPDATE);;
  savedColorscheme ← gets colorscheme;
  match savedColorscheme with
  | Some savedColorscheme => setSavedColorscheme savedColorscheme
  | None => skip
  end;;
  call NativeConnect.

(** *** The loop over the custom colours *)

(** A custom colour survives the loop when its value is not the
    pywal colour that the template selects for it. *)
Definition keptBy (pywalColors : IPywalColors)
    (template : IPaletteTemplate) (kv : string * string) : Prop :=
  pywalColorAt pywalColors (template !! kv.1) ≠ Some kv.2.

#[local] Instance keptBy_dec p t kv : Decision (keptBy p t kv).
Proof. unfold keptBy. apply _. Defined.

Lemma dropTemplateColor_lookup p t (cc : IPalette) color k v :
  dropTemplateColor p t cc color !! k = Some v ↔
  cc !! k = Some v ∧ (k = color → keptBy p t (k, v)).
Proof.
  unfold dropTemplateColor, keptBy; simpl. case_decide as Hd.
  - rewrite lookup_delete_Some. split.
    + intros [Hne Hk]. split; [done|]. intros ->. done.
    + intros [Hk Himp]. split; [|done]. intros ->.
      apply Himp; [done|]. by rewrite Hd.
  - split.
    + intros Hk. split; [done|]. intros -> Heq. apply Hd. by rewrite Heq.
    + by intros [Hk _].
Qed.

(** The loop over any list of keys, in any order and with or
    without repetitions, removes from the object exactly the listed
    colours that the template maps to their own value. *)
Lemma forIn_lookup p t keys (cc : IPalette) k v :
  forIn (dropTemplateColor p t) keys cc !! k = Some v ↔
  cc !! k = Some v ∧ (k ∈ keys → keptBy p t (k, v)).
Proof.
  unfold forIn. revert cc.
  induction keys as [|color keys IH]; intros cc; simpl.
  - split; [|by intros [? _]]. intros Hk. split; [done|].
    intros Hin. by apply elem_of_nil in Hin.
  - rewrite IH, dropTemplateColor_lookup. split.
    + intros [[Hk Hc] Hks]. split; [done|].
      intros [->|Hin]%elem_of_cons; auto.
    + intros [Hk Himp]. split; [split; [done|]|].
      * intros ->. apply Himp. by left.
      * intros Hin. apply Himp. by right.
Qed.

Lemma dropTemplateColors_filter p t (cc : IPalette) :
  dropTemplateColors p t cc = filter (keptBy p t) cc.
Proof.
  apply map_eq; intros k. apply option_eq; intros v.
  unfold dropTemplateColors.
  rewrite forIn_lookup, map_lookup_filter_Some. split.
  - intros [Hk Himp]. split; [done|]. apply Himp.
    apply list_elem_of_fmap. exists (k, v). split; [done|].
    by apply elem_of_map_to_list.
  - intros [Hk Hkept]. split; [done|]. by intros _.
Qed.

(** *** Running the methods *)

(** The calls to DuckDuckGo among the calls of a log. *)
Definition isDDGCall (e : Effect) : bool :=
  match e with
  | DDGSetTheme _ _ | DDGResetTheme => true
  | _ => false
  end.

Definition ddgCalls (log : list Effect) : list Effect :=
  List.filter isDDGCall log.

(** The calls that apply or remove a theme: browser, pages, DuckDuckGo. *)
Definition isThemeCall (e : Effect) : bool :=
  match e with
  | BrowserThemeUpdate _ | BrowserThemeReset | PageSetTheme _ _
  | DDGSetTheme _ _ | DDGResetTheme => true
  | _ => false
  end.

Definition themeCalls (log : list Effect) : list Effect :=
  List.filter isThemeCall log.

(** The calls by which [updateThemes] applies a colorscheme. *)
Definition applyCalls (ddg : bool) (c : IColorscheme) : list Effect :=
  ([BrowserThemeUpdate (browser c);
    PageSetTheme SETTINGS (Some (extension c));
    PageSetTheme UPDATE (Some (extension c))]
   ++ (if ddg then [DDGSetTheme (hash c) (duckduckgo c)] else []))%list.

Lemma updateThemes_run pywal custom st :
  updateThemes pywal custom st =
    let c := generateColorscheme pywal custom (template st) in
    (tt,
     mkState true (Some pywal) (Some c) (orNull custom) (template st)
             (ddgThemeEnabled st) (cssFontSize st),
     applyCalls (ddgThemeEnabled st) c).
Proof. destruct st as [a p c cc t [] f]; reflexivity. Qed.

Lemma resetThemes_run st :
  resetThemes st =
    (tt,
     mkState false None None None (template st) (ddgThemeEnabled st)
             (cssFontSize st),
     ([BrowserThemeReset; PageSetTheme SETTINGS None; PageSetTheme UPDATE None]
      ++ (if ddgThemeEnabled st then [DDGResetTheme] else [])
      ++ [UISendDebuggingOutput "Theme was disabled" None])%list).
Proof. destruct st as [a p c cc t [] f]; reflexivity. Qed.

(** *** The palette received from the daemon *)

(** C1 as the specification words it: the colorscheme that is applied
    is generated from the extended colours, the custom colours held in
    the state, and the current template. *)
Definition appliesWithStoredCustomColors
    (pywalColors : IPywalColors) (st : State) : Prop :=
  let c := generateColorscheme (extendPywalColors pywalColors)
             (ofState (customColors st)) (template st) in
  let log := logOf (onPywalColorsReceived pywalColors st) in
  BrowserThemeUpdate (browser c) ∈ log ∧
  PageSetTheme SETTINGS (Some (extension c)) ∈ log ∧
  PageSetTheme UPDATE (Some (extension c)) ∈ log.

(** C1, amended. For every raw palette received from the daemon, the
    extended colours are sent to the UI and handed to [updateThemes]
    without custom colours: the colorscheme is generated from the
    extended colours, an undefined custom-colour argument and the
    current template; its browser component goes to the browser theme
    API and its extension component to the settings and the update
    page; the custom colours held in the state are not used, and the
    state holds none afterwards. *)
Theorem onPywalColorsReceived_applies (received : IPywalColors) (st : State) :
  let colors := extendPywalColors received in
  let c := generateColorscheme colors undefined (template st) in
  let r := onPywalColorsReceived received st in
  logOf r =
    ([UISendDebuggingOutput
        "Pywal colors was fetched from daemon and applied successfully" None;
      UISendPywalColors colors;
      BrowserThemeUpdate (browser c);
      PageSetTheme SETTINGS (Some (extension c));
      PageSetTheme UPDATE (Some (extension c))]
     ++ (if ddgThemeEnabled st then [DDGSetTheme (hash c) (duckduckgo c)]
         else []))%list ∧
  pywalColors (stateAfter r) = Some colors ∧
  colorscheme (stateAfter r) = Some c ∧
  customColors (stateAfter r) = None.
Proof.
  intros colors c r. subst r. unfold onPywalColorsReceived.
  fold colors. unfold mbind, action_bind, call.
  rewrite updateThemes_run. simpl. fold c. auto.
Qed.

(** *** Start-up *)

(** C2. [start] loads the persisted state first; when the stored
    colorscheme is not null, its browser component is applied to the
    browser theme, its extension component to both extension pages, and
    the applied flag is set; when it is null, no theme call is made and
    the loaded state is left as it is. *)
Theorem start_reapplies_saved (persisted st0 : State) :
  let r := start persisted st0 in
  match colorscheme persisted with
  | Some c =>
      logOf r =
        [PageCreate SETTINGS; PageCreate UPDATE;
         ConsoleLog "Applying saved colorscheme";
         BrowserThemeUpdate (browser c);
         PageSetTheme SETTINGS (Some (extension c));
         PageSetTheme UPDATE (Some (extension c));
         NativeConnect] ∧
      stateAfter r = state_setApplied true persisted ∧
      isApplied (stateAfter r) = true
  | None =>
      logOf r = [PageCreate SETTINGS; PageCreate UPDATE; NativeConnect] ∧
      themeCalls (logOf r) = [] ∧
      stateAfter r = persisted
  end.
Proof.
  destruct persisted as [a p [c|] cc t d f]; simpl; auto.
Qed.

(** What [updateThemes] stored is what the next [start] applies. *)
Lemma start_after_updateThemes pywal custom st st0 :
  let c := generateColorscheme pywal custom (template st) in
  let persisted := stateAfter (updateThemes pywal custom st) in
  BrowserThemeUpdate (browser c) ∈ logOf (start persisted st0) ∧
  PageSetTheme SETTINGS (Some (extension c)) ∈ logOf (start persisted st0) ∧
  PageSetTheme UPDATE (Some (extension c)) ∈ logOf (start persisted st0).
Proof.
  intros c persisted. subst persisted. rewrite updateThemes_run. simpl.
  fold c. repeat split; set_solver.
Qed.

(** *** DuckDuckGo *)

(** C3 as the specification words it: every [updateThemes] sets the
    DuckDuckGo theme from the generated colorscheme. *)
Definition alwaysSetsDDGTheme
    (pywalColors : IPywalColors) (custom : Nullable IPalette) (st : State)
  : Prop :=
  let c := generateColorscheme pywalColors custom (template st) in
  DDGSetTheme (hash c) (duckduckgo c) ∈ logOf (updateThemes pywalColors custom st).

(** C3, amended. When the DuckDuckGo option is enabled in the state,
    [updateThemes] sets the DuckDuckGo theme once, from the hash and
    the duckduckgo component of the colorscheme it generated; when the
    option is disabled it makes no call to DuckDuckGo. *)
Theorem updateThemes_ddg
    (pywalColors : IPywalColors) (custom : Nullable IPalette) (st : State) :
  let c := generateColorscheme pywalColors custom (template st) in
  ddgCalls (logOf (updateThemes pywalColors custom st)) =
    if ddgThemeEnabled st then [DDGSetTheme (hash c) (duckduckgo c)] else [].
Proof.
  intros c. rewrite updateThemes_run. fold c.
  destruct (ddgThemeEnabled st); reflexivity.
Qed.

(** Switching the option on is the other way to the DuckDuckGo theme:
    the stored colorscheme, when there is one, is applied at once. *)
Lemma setDDGEnabled_on name st c :
  ddgThemeEnabled st = false →
  colorscheme st = Some c →
  setDDGEnabled (mkOptionSetData name true None) st =
    (tt, state_setDDGThemeEnabled true st,
     [DDGSetTheme (hash c) (duckduckgo c); UISendOption name true]).
Proof.
  intros Hd Hc. unfold setDDGEnabled, applyDuckDuckGoTheme.
  unfold mbind, action_bind, gets. rewrite Hd; simpl. by rewrite Hc.
Qed.

(** *** What the state holds afterwards *)

(** C4. After [updateThemes pywalColors customColors] the state holds
    the given pywal colours, the colorscheme generated from them (and
    the custom colours) with the current template, the given custom
    colours, or null when none were passed, and the applied flag set;
    after [resetThemes] the pywal colours, the colorscheme and the
    custom colours are null and the applied flag is false.  Template,
    DuckDuckGo option and font size are as before in both cases. *)
Theorem updateThemes_resetThemes_state
    (pywalColors : IPywalColors) (custom : Nullable IPalette) (st : State) :
  stateAfter (updateThemes pywalColors custom st) =
    mkState true (Some pywalColors)
            (Some (generateColorscheme pywalColors custom (template st)))
            (match custom with
             | object c => Some c
             | undefined | null => None
             end)
            (template st) (ddgThemeEnabled st) (cssFontSize st) ∧
  stateAfter (resetThemes st) =
    mkState false None None None
            (template st) (ddgThemeEnabled st) (cssFontSize st).
Proof.
  rewrite updateThemes_run, resetThemes_run. split; reflexivity.
Qed.

(** *** A new palette template *)

(** C5. With pywal colours in the state, [applyUpdatedPaletteTemplate]
    removes from the custom colours every colour whose value is the
    pywal colour that the new template selects for it and keeps the
    others as they are; it then regenerates the themes from the
    remaining custom colours, exactly as [updateThemes] does, stores
    the remaining colours and sends them to the UI.  Without pywal
    colours in the state it makes no call and leaves the state, custom
    colours included, as it is. *)
Theorem applyUpdatedPaletteTemplate_spec
    (newTemplate : IPaletteTemplate) (st : State) :
  (∀ pywal,
      pywalColors st = Some pywal →
      let remaining := filter (keptBy pywal newTemplate) <$> customColors st in
      let c := generateColorscheme pywal (ofState remaining) (template st) in
      let r := applyUpdatedPaletteTemplate newTemplate st in
      (∀ old color v,
          customColors st = Some old →
          (remaining ≫= (.!! color)) = Some v ↔
          old !! color = Some v ∧
          pywalColorAt pywal (newTemplate !! color) ≠ Some v) ∧
      r = (updateThemes pywal (ofState remaining);;
           call (UISendCustomColors (ofState remaining))) st ∧
      logOf r = (applyCalls (ddgThemeEnabled st) c
                 ++ [UISendCustomColors (ofState remaining)])%list ∧
      stateAfter r =
        mkState true (Some pywal) (Some c) remaining (template st)
                (ddgThemeEnabled st) (cssFontSize st)) ∧
  (pywalColors st = None →
   applyUpdatedPaletteTemplate newTemplate st = (tt, st, [])).
Proof.
  split.
  - intros pywal Hp remaining c r.
    assert (Hrun : r = (updateThemes pywal (ofState remaining);;
                        call (UISendCustomColors (ofState remaining))) st).
    { subst r. unfold applyUpdatedPaletteTemplate, mbind, action_bind, gets.
      rewrite Hp. subst remaining.
      destruct (customColors st) as [old|]; simpl;
        rewrite ?dropTemplateColors_filter, !updateThemes_run; reflexivity. }
    split; [|split; [exact Hrun|]].
    + intros old color v Hold. subst remaining. rewrite Hold; simpl.
      by rewrite map_lookup_filter_Some.
    + rewrite Hrun. unfold mbind, action_bind.
      rewrite updateThemes_run. simpl. fold c.
      split; [done|]. by destruct remaining.
  - intros Hp. unfold applyUpdatedPaletteTemplate, mbind, action_bind, gets.
    by rewrite Hp.
Qed.

(** *** The font size *)

(** The value is defined and lies between 10 and 20, both included. *)
Definition fontSizeInRange (data : IOptionSetData) : Prop :=
  ∃ q, value data = Some (finite q) ∧ (10 # 1 <= q)%Q ∧ (q <= 20 # 1)%Q.

Lemma in_range_iff (v : number) :
  geq v (10 # 1) && leq v (20 # 1) = true ↔
  ∃ q, v = finite q ∧ (10 # 1 <= q)%Q ∧ (q <= 20 # 1)%Q.
Proof.
  rewrite andb_true_iff. destruct v as [q| | |]; simpl.
  - rewrite !Qle_bool_iff. split.
    + intros [H1 H2]. by exists q.
    + intros (q' & Heq & H1 & H2). by inversion Heq; subst.
  - split; [intros [? ?]; discriminate | intros (q & ? & _); discriminate].
  - split; [intros [? ?]; discriminate | intros (q & ? & _); discriminate].
  - split; [intros [? ?]; discriminate | intros (q & ? & _); discriminate].
Qed.

(** C6. [setCssFontSize] asks the native app to set the font size (of
    userChrome, to the given value) exactly when the value is defined
    and lies between 10 and 20 inclusive; for every other input it
    sends the error notification and makes no native request; the
    state, stored font size included, is never changed. *)
Theorem setCssFontSize_spec (data : IOptionSetData) (st : State) :
  let r := setCssFontSize data st in
  stateAfter r = st ∧
  ((∃ target size, NativeRequestFontSizeSet target size ∈ logOf r) ↔
   fontSizeInRange data) ∧
  ((fontSizeInRange data ∧
    ∃ size, value data = Some size ∧
            logOf r = [NativeRequestFontSizeSet UserChrome size]) ∨
   (¬ fontSizeInRange data ∧
    logOf r = [UISendNotification "Font size error"
                                  "Invalid size or not set" (Some true)])).
Proof.
  intros r. subst r. unfold setCssFontSize, fontSizeInRange.
  destruct (value data) as [v|] eqn:Hv.
  - destruct (geq v (10 # 1) && leq v (20 # 1)) eqn:Hb.
    + assert (Hr : ∃ q, Some v = Some (finite q) ∧ (10 # 1 <= q)%Q ∧ (q <= 20 # 1)%Q).
      { apply in_range_iff in Hb as (q & -> & ?). by exists q. }
      split; [done|]. split.
      * split; [done|]. intros _. exists UserChrome, v. simpl.
        by apply list_elem_of_singleton.
      * left. split; [done|]. by exists v.
    + assert (Hr : ¬ ∃ q, Some v = Some (finite q) ∧ (10 # 1 <= q)%Q ∧ (q <= 20 # 1)%Q).
      { intros (q & Heq & Hq). inversion Heq; subst.
        assert (geq (finite q) (10 # 1) && leq (finite q) (20 # 1) = true)
          by (apply in_range_iff; by exists q).
        congruence. }
      split; [done|]. split.
      * split; [|done]. intros (t & sz & Hin). simpl in Hin.
        apply list_elem_of_singleton in Hin. discriminate.
      * right. by split.
  - assert (Hr : ¬ ∃ q, None = Some (finite q) ∧ (10 # 1 <= q)%Q ∧ (q <= 20 # 1)%Q)
      by (intros (q & ? & _); discriminate).
    split; [done|]. split.
    + split; [|done]. intros (t & sz & Hin). simpl in Hin.
      apply list_elem_of_singleton in Hin. discriminate.
    + right. by split.
Qed.

(** *** Picking a palette colour *)

(** [Object.assign(target, source)]: the own properties of the source
    are written over those of the target; a source that is
    [undefined] or [null] is skipped. *)
Definition objectAssign (target : IPalette) (source : Nullable IPalette)
  : IPalette :=
  match source with
  | object src => src ∪ target
  | undefined | null => target
  end.

(** [createCustomColorPalette(data)].  [Object.assign] writes into the
    object that the state handed out; [updateThemes], which is the
    only user of the result, stores that object again. *)
Definition createCustomColorPalette (data : Nullable IPalette)
  : Action (Nullable IPalette) :=
  currentColors ← gets customColors;
  match currentColors with
  | None => mret data
  | Some currentColors => mret (object (objectAssign currentColors data))
  end.

Definition setPaletteColor (palette : Nullable IPalette) : Action unit :=
  pywalColors ← gets pywalColors;
  match pywalColors with
  | Some pywalColors =>
      customPalette ← createCustomColorPalette palette;
      updateThemes pywalColors customPalette
  | None => skip
  end.

(** The custom palette that [setPaletteColor] hands to [updateThemes]. *)
Definition pickedPalette (st : State) (palette : Nullable IPalette)
  : Nullable IPalette :=
  match customColors st with
  | None => palette
  | Some currentColors => object (objectAssign currentColors palette)
  end.

Lemma setPaletteColor_run palette st :
  setPaletteColor palette st =
    match pywalColors st with
    | Some pywal => updateThemes pywal (pickedPalette st palette) st
    | None => (tt, st, [])
    end.
Proof.
  unfold setPaletteColor, createCustomColorPalette, pickedPalette.
  unfold mbind, action_bind, gets.
  destruct (pywalColors st) as [pywal|]; [|done].
  destruct (customColors st) as [cur|]; simpl;
    rewrite !updateThemes_run; reflexivity.
Qed.

(** Without pywal colours in the state a picked colour is dropped: no
    call is made and nothing is stored.  With pywal colours, the picked
    colours are written over the custom colours stored so far, which
    are otherwise kept, and the themes are regenerated from the result
    as by [updateThemes]. *)
Theorem setPaletteColor_spec (picked : IPalette) (st : State) :
  (pywalColors st = None →
   setPaletteColor (object picked) st = (tt, st, [])) ∧
  (∀ pywal,
      pywalColors st = Some pywal →
      let r := setPaletteColor (object picked) st in
      let merged := picked ∪ default ∅ (customColors st) in
      customColors (stateAfter r) = Some merged ∧
      (∀ color,
          merged !! color =
            match picked !! color with
            | Some v => Some v
            | None => customColors st ≫= (.!! color)
            end) ∧
      r = updateThemes pywal (object merged) st).
Proof.
  split.
  - intros Hp. rewrite setPaletteColor_run. by rewrite Hp.
  - intros pywal Hp r merged.
    assert (Hpicked : pickedPalette st (object picked) = object merged).
    { unfold pickedPalette. subst merged.
      destruct (customColors st) as [cur|]; simpl; [done|].
      by rewrite (right_id_L ∅ (∪)). }
    assert (Hr : r = updateThemes pywal (object merged) st).
    { subst r. rewrite setPaletteColor_run, Hp. by rewrite Hpicked. }
    split; [|split; [|done]].
    + rewrite Hr, updateThemes_run. reflexivity.
    + intros color. subst merged. rewrite lookup_union.
      destruct (picked !! color) as [v|] eqn:E; simpl.
      * by destruct (default ∅ (customColors st) !! color).
      * rewrite (left_id_L None union).
        destruct (customColors st) as [cur|]; simpl; [done|].
        apply lookup_empty.
Qed.

(** Picking colours in two steps stores what picking them in one step
    stores, the later pick winning where both name a colour. *)
Theorem setPaletteColor_twice (first second : IPalette) (st : State) :
  stateAfter (setPaletteColor (object second)
                (stateAfter (setPaletteColor (object first) st)))
  = stateAfter (setPaletteColor (object (second ∪ first)) st).
Proof.
  rewrite (setPaletteColor_run (object first) st).
  rewrite (setPaletteColor_run (object (second ∪ first)) st).
  destruct (pywalColors st) as [pywal|] eqn:Hp.
  - rewrite !updateThemes_run. unfold stateAfter at 2 3; simpl.
    rewrite setPaletteColor_run; simpl. rewrite updateThemes_run.
    unfold stateAfter, pickedPalette; simpl.
    destruct (customColors st) as [cur|]; simpl.
    + by rewrite (assoc_L (∪)).
    + done.
  - unfold stateAfter at 2 3; simpl.
    rewrite setPaletteColor_run, Hp. done.
Qed.

(** *** More on the loop over the custom colours *)

Lemma pywalColorAt_Some pywal index v :
  pywalColorAt pywal index = Some v →
  ∃ i, index = Some i ∧ (0 ≤ i < Z.of_nat (length pywal))%Z.
Proof.
  unfold pywalColorAt. destruct index as [i|]; simpl; [|done].
  case_decide as Hi; [|done]. intros Hl. exists i. split; [done|].
  apply lookup_lt_Some in Hl. lia.
Qed.

(** The enumeration order of [for ... in] does not matter: over any
    list of keys that covers the keys of the object, in any order,
    with or without repetitions or foreign keys, the loop leaves
    exactly the colours whose value differs from the pywal colour that
    the template selects for them. *)
Theorem forIn_any_order
    (pywal : IPywalColors) (t : IPaletteTemplate)
    (keys : list string) (cc : IPalette) :
  (∀ color, is_Some (cc !! color) → color ∈ keys) →
  forIn (dropTemplateColor pywal t) keys cc = filter (keptBy pywal t) cc.
Proof.
  intros Hkeys. apply map_eq; intros k. apply option_eq; intros v.
  rewrite forIn_lookup, map_lookup_filter_Some. split.
  - intros [Hk Himp]. split; [done|]. apply Himp, Hkeys. by exists v.
  - intros [Hk Hkept]. split; [done|]. by intros _.
Qed.

(** The loop only ever removes: what is left is part of the custom
    colours as they were, and a colour for which the template has no
    entry, or an index that is negative or beyond the pywal colours,
    always stays. *)
Theorem dropTemplateColors_keeps
    (pywal : IPywalColors) (t : IPaletteTemplate) (cc : IPalette) :
  dropTemplateColors pywal t cc ⊆ cc ∧
  ∀ color v,
    cc !! color = Some v →
    match t !! color with
    | None => True
    | Some i => (i < 0 ∨ Z.of_nat (length pywal) ≤ i)%Z
    end →
    dropTemplateColors pywal t cc !! color = Some v.
Proof.
  rewrite dropTemplateColors_filter. split.
  - apply map_filter_subseteq.
  - intros color v Hc Hidx. apply map_lookup_filter_Some. split; [done|].
    unfold keptBy; simpl. intros Hat.
    apply pywalColorAt_Some in Hat as (i & Hi & Hrange).
    rewrite Hi in Hidx. lia.
Qed.

Lemma filter_keptBy_twice pywal t (cc : IPalette) :
  filter (keptBy pywal t) (filter (keptBy pywal t) cc)
  = filter (keptBy pywal t) cc.
Proof.
  apply map_eq; intros k. apply option_eq; intros v.
  rewrite !map_lookup_filter_Some. split.
  - by intros [[Hk Hkept] _].
  - by intros [Hk Hkept].
Qed.

Lemma applyUpdatedPaletteTemplate_run t st :
  applyUpdatedPaletteTemplate t st =
    match pywalColors st with
    | None => (tt, st, [])
    | Some pywal =>
        let remaining := filter (keptBy pywal t) <$> customColors st in
        let c := generateColorscheme pywal (ofState remaining) (template st) in
        (tt,
         mkState true (Some pywal) (Some c) remaining (template st)
                 (ddgThemeEnabled st) (cssFontSize st),
         (applyCalls (ddgThemeEnabled st) c
          ++ [UISendCustomColors (ofState remaining)])%list)
    end.
Proof.
  unfold applyUpdatedPaletteTemplate, mbind, action_bind, gets.
  destruct (pywalColors st) as [pywal|]; [|done].
  destruct (customColors st) as [old|]; simpl;
    rewrite ?dropTemplateColors_filter, !updateThemes_run; reflexivity.
Qed.

(** Applying the same palette template a second time removes nothing
    more: the state after two applications is the state after one. *)
Theorem applyUpdatedPaletteTemplate_twice (t : IPaletteTemplate) (st : State) :
  stateAfter (applyUpdatedPaletteTemplate t
                (stateAfter (applyUpdatedPaletteTemplate t st)))
  = stateAfter (applyUpdatedPaletteTemplate t st).
Proof.
  rewrite (applyUpdatedPaletteTemplate_run t st).
  destruct (pywalColors st) as [pywal|] eqn:Hp.
  - unfold stateAfter; simpl. rewrite applyUpdatedPaletteTemplate_run; simpl.
    destruct (customColors st) as [cc|]; simpl; [|done].
    by rewrite filter_keptBy_twice.
  - unfold stateAfter; simpl. rewrite applyUpdatedPaletteTemplate_run.
    by rewrite Hp.
Qed.

(** A colour picked to be the very pywal colour that the template
    selects for it does not survive the next application of the
    template, whereas the other custom colours are filtered as usual. *)
Theorem pick_then_applyTemplate
    (color v : string) (t : IPaletteTemplate) (pywal : IPywalColors)
    (st : State) :
  pywalColors st = Some pywal →
  pywalColorAt pywal (t !! color) = Some v →
  let st1 := stateAfter (setPaletteColor (object {[ color := v ]}) st) in
  let st2 := stateAfter (applyUpdatedPaletteTemplate t st1) in
  (customColors st1 ≫= (.!! color)) = Some v ∧
  (customColors st2 ≫= (.!! color)) = None ∧
  ∀ other w,
    other ≠ color →
    (customColors st2 ≫= (.!! other)) = Some w ↔
    (customColors st ≫= (.!! other)) = Some w ∧
    pywalColorAt pywal (t !! other) ≠ Some w.
Proof.
  intros Hp Hat st1 st2.
  assert (H1 : customColors st1
               = Some ({[ color := v ]} ∪ default ∅ (customColors st))
             ∧ pywalColors st1 = Some pywal).
  { subst st1. rewrite setPaletteColor_run, Hp, updateThemes_run.
    unfold stateAfter, pickedPalette; simpl.
    destruct (customColors st) as [cur|]; simpl; [done|].
    by rewrite (right_id_L ∅ (∪)). }
  destruct H1 as [Hc1 Hp1].
  assert (H2 : customColors st2
               = filter (keptBy pywal t) <$> customColors st1).
  { subst st2. rewrite applyUpdatedPaletteTemplate_run, Hp1. done. }
  split; [|split].
  - rewrite Hc1; simpl. rewrite lookup_union, lookup_singleton_eq.
    by destruct (default ∅ (customColors st) !! color).
  - rewrite H2, Hc1; simpl. apply map_lookup_filter_None. right.
    intros w Hw Hkept. apply Hkept; simpl.
    rewrite (lookup_union_Some_l _ _ color v) in Hw
      by apply lookup_singleton_eq.
    congruence.
  - intros other w Hne. rewrite H2, Hc1; simpl.
    rewrite map_lookup_filter_Some, lookup_union.
    rewrite lookup_singleton_ne by done. rewrite (left_id_L None union).
    unfold keptBy; simpl.
    destruct (customColors st) as [cur|]; simpl; [done|].
    rewrite lookup_empty. split; [intros [? _]|intros [? _]]; done.
Qed.

(** *** Restart, disabling, and the DuckDuckGo option *)

Lemma stateAfter_triple {A} (a : A) (st : State) (log : list Effect) :
  stateAfter (a, st, log) = st.
Proof. reflexivity. Qed.

Lemma logOf_triple {A} (a : A) (st : State) (log : list Effect) :
  logOf (a, st, log) = log.
Proof. reflexivity. Qed.

Lemma start_run persisted st0 :
  start persisted st0 =
    match colorscheme persisted with
    | Some c =>
        (tt, state_setApplied true persisted,
         [PageCreate SETTINGS; PageCreate UPDATE;
          ConsoleLog "Applying saved colorscheme";
          BrowserThemeUpdate (browser c);
          PageSetTheme SETTINGS (Some (extension c));
          PageSetTheme UPDATE (Some (extension c));
          NativeConnect])
    | None =>
        (tt, persisted,
         [PageCreate SETTINGS; PageCreate UPDATE; NativeConnect])
    end.
Proof. destruct persisted as [a p [c|] cc t d f]; reflexivity. Qed.

Lemma setDDGTheme_run st :
  setDDGTheme st =
    (tt, st,
     if ddgThemeEnabled st
     then match colorscheme st with
          | Some c => [DDGSetTheme (hash c) (duckduckgo c)]
          | None => []
          end
     else [DDGResetTheme]).
Proof. destruct st as [a p [c|] cc t [] f]; reflexivity. Qed.

Lemma setDDGEnabled_run data st :
  setDDGEnabled data st =
    (tt, state_setDDGThemeEnabled (enabled data) st,
     ((if enabled data && negb (ddgThemeEnabled st)
       then match colorscheme st with
            | Some c => [DDGSetTheme (hash c) (duckduckgo c)]
            | None => []
            end
       else if negb (enabled data) && ddgThemeEnabled st
            then [DDGResetTheme]
            else [])
      ++ [UISendOption (option_ data) (enabled data)])%list).
Proof.
  destruct st as [a p [c|] cc t [] f]; destruct data as [o [] v];
    reflexivity.
Qed.

(** A restart after a theme update: [start] on the state that
    [updateThemes] left applies the browser and the extension component
    of the colorscheme generated then, makes no call to DuckDuckGo even
    when that option is enabled, and leaves the state exactly as
    [updateThemes] left it. *)
Theorem start_after_update
    (pywal : IPywalColors) (custom : Nullable IPalette) (st st0 : State) :
  let persisted := stateAfter (updateThemes pywal custom st) in
  let c := generateColorscheme pywal custom (template st) in
  let r := start persisted st0 in
  themeCalls (logOf r) =
    [BrowserThemeUpdate (browser c);
     PageSetTheme SETTINGS (Some (extension c));
     PageSetTheme UPDATE (Some (extension c))] ∧
  ddgCalls (logOf r) = [] ∧
  stateAfter r = persisted.
Proof.
  intros persisted c r. subst r persisted.
  rewrite updateThemes_run. cbv zeta. rewrite stateAfter_triple.
  rewrite start_run. cbn [colorscheme]. fold c.
  rewrite stateAfter_triple, logOf_triple. done.
Qed.

(** Once the theme is disabled nothing brings it back but a new
    palette: on the state that [resetThemes] leaves, a restart applies
    no theme, a new palette template and a picked colour do nothing at
    all, a DuckDuckGo page that asks for its theme is sent none, and a
    second [resetThemes] stores nothing new. *)
Theorem after_resetThemes
    (st st0 : State) (t : IPaletteTemplate) (picked : Nullable IPalette) :
  let off := stateAfter (resetThemes st) in
  themeCalls (logOf (start off st0)) = [] ∧
  stateAfter (start off st0) = off ∧
  applyUpdatedPaletteTemplate t off = (tt, off, []) ∧
  setPaletteColor picked off = (tt, off, []) ∧
  (∀ h d, DDGSetTheme h d ∉ logOf (setDDGTheme off)) ∧
  stateAfter (resetThemes off) = off.
Proof.
  intros off. subst off. rewrite resetThemes_run, stateAfter_triple.
  rewrite start_run, applyUpdatedPaletteTemplate_run, setPaletteColor_run,
    setDDGTheme_run, resetThemes_run.
  cbn [colorscheme pywalColors ddgThemeEnabled template cssFontSize].
  rewrite !stateAfter_triple, !logOf_triple.
  repeat split; try done.
  intros h d Hin. destruct (ddgThemeEnabled st); simpl in Hin.
  - by apply elem_of_nil in Hin.
  - apply list_elem_of_singleton in Hin. discriminate.
Qed.

(** [setDDGEnabled] called again with the same value: no call to
    DuckDuckGo, and the state stays as the first call left it. *)
Theorem setDDGEnabled_again (data : IOptionSetData) (st : State) :
  let st1 := stateAfter (setDDGEnabled data st) in
  ddgCalls (logOf (setDDGEnabled data st1)) = [] ∧
  stateAfter (setDDGEnabled data st1) = st1.
Proof.
  intros st1. subst st1. rewrite (setDDGEnabled_run data st).
  rewrite stateAfter_triple, setDDGEnabled_run.
  rewrite stateAfter_triple, logOf_triple.
  cbn [ddgThemeEnabled colorscheme state_setDDGThemeEnabled].
  destruct (enabled data); done.
Qed.

(** Switching the DuckDuckGo option off and on again, with a
    colorscheme stored: DuckDuckGo is reset and then given the stored
    theme, and the state is back where it was. *)
Theorem setDDGEnabled_off_on (off on : IOptionSetData) (st : State)
    (c : IColorscheme) :
  ddgThemeEnabled st = true →
  colorscheme st = Some c →
  enabled off = false →
  enabled on = true →
  let r1 := setDDGEnabled off st in
  let r2 := setDDGEnabled on (stateAfter r1) in
  ddgCalls (logOf r1 ++ logOf r2) =
    [DDGResetTheme; DDGSetTheme (hash c) (duckduckgo c)] ∧
  stateAfter r2 = st.
Proof.
  intros Hd Hc Hoff Hon r1 r2. subst r1 r2.
  rewrite (setDDGEnabled_run off st), stateAfter_triple, logOf_triple.
  rewrite setDDGEnabled_run, stateAfter_triple, logOf_triple.
  cbn [ddgThemeEnabled colorscheme state_setDDGThemeEnabled].
  rewrite Hd, Hc, Hoff, Hon. split; [done|].
  destruct st; simpl in *; by subst.
Qed.

(** The DuckDuckGo theme follows the last theme update: after
    [updateThemes], a DuckDuckGo page that asks ([setDDGTheme]) is
    sent the hash and duckduckgo component generated by that update
    when the option is enabled, and a reset when it is not; and
    enabling the option afterwards sends that same theme. *)
Theorem ddg_follows_update
    (pywal : IPywalColors) (custom : Nullable IPalette)
    (on : IOptionSetData) (st : State) :
  enabled on = true →
  let st1 := stateAfter (updateThemes pywal custom st) in
  let c := generateColorscheme pywal custom (template st) in
  setDDGTheme st1 =
    (tt, st1,
     if ddgThemeEnabled st
     then [DDGSetTheme (hash c) (duckduckgo c)]
     else [DDGResetTheme]) ∧
  ddgCalls (logOf (setDDGEnabled on st1)) =
    if ddgThemeEnabled st then [] else [DDGSetTheme (hash c) (duckduckgo c)].
Proof.
  intros Hon st1 c. subst st1. rewrite updateThemes_run. cbv zeta.
  rewrite stateAfter_triple, setDDGTheme_run, setDDGEnabled_run, logOf_triple.
  cbn [ddgThemeEnabled colorscheme]. fold c.
  rewrite Hon. destruct (ddgThemeEnabled st); done.
Qed.

End extension.

(* --------------------------------------------------------------------- *)
(** *** The callbacks of the native app and the update page *)
(* --------------------------------------------------------------------- *)

(** [v < k] for a finite constant [k]. *)
Definition lt (v : number) (k : Q) : bool :=
  match v with
  | finite q => negb (Qle_bool k q)
  | negInfinity => true
  | NaN | Infinity => false
  end.

(** [a === b] on numbers: NaN is not equal to itself. *)
Definition strictEq (a b : number) : bool :=
  match a, b with
  | finite p, finite q => Qeq_bool p q
  | Infinity, Infinity | negInfinity, negInfinity => true
  | _, _ => false
  end.

(** What a destructuring parameter [{ option, enabled, value }] reads
    from a number: a number has none of these properties, so all three
    are undefined. *)
Definition destructuredNumber (n : number) : IOptionSetData :=
  mkOptionSetData "" false None.

#[global] Instance CSSTargets_eq_dec : EqDecision CSSTargets.
Proof. solve_decision. Defined.

Section native.

Context {IBrowserTheme IExtensionTheme IDuckDuckGoTheme : Type}.
Context {IColorschemeTemplate : Type}.

(** Constants of [config/general], the string values of the enum
    [CSSTargets], and the builtin [parseFloat]. *)
Variable MIN_REQUIRED_DAEMON_VERSION : Q.
Variable DEFAULT_CSS_FONT_SIZE : number.
Variable cssTargetName : CSSTargets → string.
Variable parseFloat : string → number.

(** Modelled from the spec: the fields of the flat settings object of
    [State] that the callbacks use beside those of [State] above, with
    the same reading of getters and setters. *)
Record Session := mkSession {
  settings : @State IBrowserTheme IExtensionTheme IDuckDuckGoTheme
                    IColorschemeTemplate;
  version : number;
  connected : bool;
  updateMuted : bool;
  userChromeEnabled : bool;
  userContentEnabled : bool;
}.

Definition session_setSettings st (s : Session) : Session :=
  mkSession st (version s) (connected s) (updateMuted s)
            (userChromeEnabled s) (userContentEnabled s).

Definition session_setVersion (v : number) (s : Session) : Session :=
  mkSession (settings s) v (connected s) (updateMuted s)
            (userChromeEnabled s) (userContentEnabled s).

Definition session_setUpdateMuted (b : bool) (s : Session) : Session :=
  mkSession (settings s) (version s) (connected s) b
            (userChromeEnabled s) (userContentEnabled s).

Definition session_getCssEnabled (target : CSSTargets) (s : Session) : bool :=
  match target with
  | UserChrome => userChromeEnabled s
  | UserContent => userContentEnabled s
  end.

Definition session_setCssEnabled (target : CSSTargets) (b : bool)
    (s : Session) : Session :=
  match target with
  | UserChrome =>
      mkSession (settings s) (version s) (connected s) (updateMuted s)
                b (userContentEnabled s)
  | UserContent =>
      mkSession (settings s) (version s) (connected s) (updateMuted s)
                (userChromeEnabled s) b
  end.

(** The calls of the callbacks: those of the methods above, and three
    more. *)
Inductive Event :=
| Core (e : @Effect IBrowserTheme IExtensionTheme IDuckDuckGoTheme)
| PageOpen (page : ExtensionPage)
| PageClose (page : ExtensionPage)
| NativeRequestCssEnabled (target : string) (enabled : bool).

Definition Handler (A : Type) : Type := Session → A * Session * list Event.

#[local] Instance handler_ret : MRet Handler :=
  λ A a s, (a, s, []).

#[local] Instance handler_bind : MBind Handler :=
  λ A B f m s,
    let '(a, s1, log1) := m s in
    let '(b, s2, log2) := f a s1 in
    (b, s2, (log1 ++ log2)%list).

Definition reads {A} (f : Session → A) : Handler A := λ s, (f s, s, []).
Definition update (f : Session → Session) : Handler unit :=
  λ s, (tt, f s, []).
Definition emit (e : Event) : Handler unit := λ s, (tt, s, [e]).
Definition pass : Handler unit := mret tt.

(** A method of the first part, run on the settings of the session. *)
Definition liftAction {A} (m : Action A) : Handler A :=
  λ s,
    let '(a, st, log) := m (settings s) in
    (a, session_setSettings st s, Core <$> log).

Definition sessionAfter {A} (r : A * Session * list Event) : Session := r.1.2.
Definition eventsOf {A} (r : A * Session * list Event) : list Event := r.2.

Definition updateNeeded : Handler unit :=
  muted ← reads updateMuted;
  if muted : bool
  then emit (Core (ConsoleLog
         "Update is required, but user has muted update notifications"))
  else emit (PageOpen UPDATE).

Definition validateVersion (version : string) : Handler unit :=
  let versionNumber := parseFloat version in
  (if lt versionNumber MIN_REQUIRED_DAEMON_VERSION
   then updateNeeded else pass);;
  update (session_setVersion versionNumber).

(** [onMessage], case [UPDATE_PAGE_MUTE]. *)
Definition onUpdatePageMute : Handler unit :=
  update (session_setUpdateMuted true);;
  emit (PageClose UPDATE).

Definition cssToggleSuccess (target : CSSTargets) : Handler unit :=
  enabled ← reads (session_getCssEnabled target);
  let newState := if enabled : bool then false else true in
  let notificationMessage :=
    if newState
    then cssTargetName target ++ " was enabled successfully!"
    else cssTargetName target ++ " was disabled successfully!" in
  (if newState then
     match target with
     | UserChrome =>
         fontSize ← reads (λ s, cssFontSize (settings s));
         if negb (strictEq fontSize DEFAULT_CSS_FONT_SIZE)
         then liftAction (setCssFontSize (destructuredNumber fontSize))
         else pass
     | UserContent => pass
     end
   else pass);;
  emit (Core (UISendOption (cssTargetName target) newState));;
  emit (Core (UISendNotification "Restart needed" notificationMessage None));;
  update (session_setCssEnabled target newState).

(** The double quote, for the text of the notification below. *)
Definition quote : string := String (Ascii.ascii_of_nat 34) EmptyString.

Definition setCustomCSSEnabled (data : IOptionSetData) : Handler unit :=
  if bool_decide (option_ data ∈ [cssTargetName UserChrome;
                                   cssTargetName UserContent])
  then emit (NativeRequestCssEnabled (option_ data) (enabled data))
  else
    let action := if enabled data then "enable" else "disable" in
    emit (Core (UISendNotification "Custom CSS"
            ("Could not " ++ action ++ " CSS target " ++ quote
             ++ option_ data ++ quote ++ ". Invalid target")
            (Some true)));;
    emit (Core (UISendOption (option_ data) (negb (enabled data)))).

(** **** The daemon version and the update page *)

(** The parsed version is below the required one. *)
Definition outdated (v : number) : Prop :=
  v = negInfinity ∨ ∃ q, v = finite q ∧ (q < MIN_REQUIRED_DAEMON_VERSION)%Q.

Lemma lt_outdated v : lt v MIN_REQUIRED_DAEMON_VERSION = true ↔ outdated v.
Proof.
  unfold outdated. destruct v as [q| | |]; simpl.
  - rewrite negb_true_iff, <- not_true_iff_false, Qle_bool_iff. split.
    + intros Hq. right. exists q. split; [done|]. by apply Qnot_le_lt.
    + intros [Hq|(q' & Hq & Hlt)]; [discriminate|].
      inversion Hq; subst. by apply Qlt_not_le.
  - split; [discriminate|]. intros [?|(? & ? & _)]; discriminate.
  - split; [discriminate|]. intros [?|(? & ? & _)]; discriminate.
  - split; [intros _; by left | done].
Qed.

Lemma validateVersion_run v s :
  validateVersion v s =
    (tt, session_setVersion (parseFloat v) s,
     if lt (parseFloat v) MIN_REQUIRED_DAEMON_VERSION
     then if updateMuted s
          then [Core (ConsoleLog
                  "Update is required, but user has muted update notifications")]
          else [PageOpen UPDATE]
     else []).
Proof.
  unfold validateVersion, updateNeeded, mbind, handler_bind, reads, update.
  destruct (lt (parseFloat v) MIN_REQUIRED_DAEMON_VERSION);
    destruct s as [st ver con [] uc ut]; reflexivity.
Qed.

(** [validateVersion] always stores the parsed version and changes
    nothing else; it opens the update page exactly when updates are not
    muted and the parsed version is below the required one.  A version
    string that does not parse (NaN) is stored and never opens the
    page. *)
Theorem validateVersion_spec (v : string) (s : Session) :
  let r := validateVersion v s in
  sessionAfter r = session_setVersion (parseFloat v) s ∧
  (PageOpen UPDATE ∈ eventsOf r ↔
   updateMuted s = false ∧ outdated (parseFloat v)) ∧
  (parseFloat v = NaN → eventsOf r = []).
Proof.
  intros r. subst r. rewrite validateVersion_run.
  unfold sessionAfter, eventsOf; simpl.
  split; [done|]. split.
  - rewrite <- lt_outdated.
    destruct (lt (parseFloat v) MIN_REQUIRED_DAEMON_VERSION);
      destruct (updateMuted s); split.
    + intros Hin. apply list_elem_of_singleton in Hin. discriminate.
    + intros [? _]; discriminate.
    + done.
    + intros _. by apply list_elem_of_singleton.
    + intros Hin. by apply elem_of_nil in Hin.
    + intros [_ ?]; discriminate.
    + intros Hin. by apply elem_of_nil in Hin.
    + intros [_ ?]; discriminate.
  - intros Hnan. by rewrite Hnan.
Qed.

(** Once the update page has been muted, no version reported by the
    daemon opens it again; the version is stored all the same. *)
Theorem muted_never_opens (v : string) (s : Session) :
  let s1 := sessionAfter (onUpdatePageMute s) in
  eventsOf (onUpdatePageMute s) = [PageClose UPDATE] ∧
  (∀ page, PageOpen page ∉ eventsOf (validateVersion v s1)) ∧
  (∀ page, PageOpen page ∉ eventsOf (updateNeeded s1)) ∧
  version (sessionAfter (validateVersion v s1)) = parseFloat v ∧
  updateMuted (sessionAfter (validateVersion v s1)) = true.
Proof.
  intros s1. subst s1. rewrite validateVersion_run.
  unfold onUpdatePageMute, updateNeeded, mbind, handler_bind, reads, update,
    emit, sessionAfter, eventsOf; simpl.
  split; [done|]. split; [|split; [|done]].
  - intros page Hin.
    destruct (lt (parseFloat v) MIN_REQUIRED_DAEMON_VERSION).
    + apply list_elem_of_singleton in Hin. discriminate.
    + by apply elem_of_nil in Hin.
  - intros page Hin. apply list_elem_of_singleton in Hin. discriminate.
Qed.

(** **** Toggling custom CSS *)

Lemma cssToggleSuccess_run target s :
  cssToggleSuccess target s =
    let newState := negb (session_getCssEnabled target s) in
    (tt, session_setCssEnabled target newState s,
     ((if newState
          && bool_decide (target = UserChrome)
          && negb (strictEq (cssFontSize (settings s)) DEFAULT_CSS_FONT_SIZE)
       then [Core (UISendNotification "Font size error"
                     "Invalid size or not set" (Some true))]
       else [])
      ++ [Core (UISendOption (cssTargetName target) newState);
          Core (UISendNotification "Restart needed"
                  (cssTargetName target
                   ++ (if newState then " was enabled successfully!"
                       else " was disabled successfully!"))
                  None)])%list).
Proof.
  unfold cssToggleSuccess, mbind, handler_bind, reads, update, emit.
  destruct s as [st ver con mu uc ut]; destruct target; simpl.
  - destruct uc; simpl; [done|].
    destruct (strictEq (cssFontSize st) DEFAULT_CSS_FONT_SIZE); simpl;
      [done|]. by destruct st.
  - by destruct ut.
Qed.


(** [cssToggleSuccess] never asks the native app to set the font size.
    When userChrome has just been enabled and the stored font size is
    not the default, it calls [setCssFontSize] with the number itself,
    whose [value] property is undefined: the font size error
    notification is sent instead of the request. *)
Theorem cssToggleSuccess_font_size (target : CSSTargets) (s : Session) :
  (∀ t size,
      Core (NativeRequestFontSizeSet t size) ∉ eventsOf (cssToggleSuccess target s)) ∧
  (target = UserChrome →
   userChromeEnabled s = false →
   strictEq (cssFontSize (settings s)) DEFAULT_CSS_FONT_SIZE = false →
   eventsOf (cssToggleSuccess target s) =
     [Core (UISendNotification "Font size error"
              "Invalid size or not set" (Some true));
      Core (UISendOption (cssTargetName UserChrome) true);
      Core (UISendNotification "Restart needed"
              (cssTargetName UserChrome ++ " was enabled successfully!")
              None)]).
Proof.
  rewrite cssToggleSuccess_run. unfold eventsOf; simpl. split.
  - intros t size Hin. apply elem_of_app in Hin as [Hin|Hin].
    + destruct (_ && _ && _).
      * apply list_elem_of_singleton in Hin. discriminate.
      * by apply elem_of_nil in Hin.
    + apply elem_of_cons in Hin as [Hin|Hin]; [discriminate|].
      apply list_elem_of_singleton in Hin. discriminate.
  - intros -> Huc Hne. simpl. rewrite Huc, Hne. reflexivity.
Qed.

(** [setCustomCSSEnabled] never changes the session.  It passes the
    request on to the native app exactly when the option is the name
    of a CSS target; for any other option it makes no request, sends
    an error notification and sets the option in the UI back to the
    opposite of what was asked. *)
Theorem setCustomCSSEnabled_spec (data : IOptionSetData) (s : Session) :
  let r := setCustomCSSEnabled data s in
  sessionAfter r = s ∧
  ((∃ target, option_ data = cssTargetName target) →
   eventsOf r = [NativeRequestCssEnabled (option_ data) (enabled data)]) ∧
  ((∀ target, option_ data ≠ cssTargetName target) →
   (∀ t e, NativeRequestCssEnabled t e ∉ eventsOf r) ∧
   ∃ message,
     eventsOf r =
       [Core (UISendNotification "Custom CSS" message (Some true));
        Core (UISendOption (option_ data) (negb (enabled data)))]).
Proof.
  intros r. subst r. unfold setCustomCSSEnabled.
  case_bool_decide as Hin.
  - split; [done|]. split; [done|]. intros Hall. exfalso.
    apply elem_of_cons in Hin as [Hin|Hin]; [by apply (Hall UserChrome)|].
    apply list_elem_of_singleton in Hin. by apply (Hall UserContent).
  - split; [done|]. split.
    + intros [target Ht]. exfalso. apply Hin. rewrite Ht.
      destruct target; [by left|right; by left].
    + intros _. split.
      * intros t e Hev. unfold eventsOf in Hev; simpl in Hev.
        apply elem_of_cons in Hev as [Hev|Hev]; [discriminate|].
        apply list_elem_of_singleton in Hev. discriminate.
      * eexists. reflexivity.
Qed.

End native.

(** *** A concrete instance *)

(** Stand-ins for the two functions of [./colorscheme], for running the
    methods on concrete inputs.  All three themes are palettes, the
    colorscheme template is a palette template.  The extended colours
    are the received ones followed by black and white; the generated
    palette is what the template selects from the pywal colours,
    overridden by the custom colours when there are some. *)
Definition sampleExtend (pywalColors : IPywalColors) : IPywalColors :=
  (pywalColors ++ ["#000000"; "#ffffff"])%list.

Definition sampleGenerate (pywalColors : IPywalColors)
    (customColors : Nullable IPalette) (template : IPaletteTemplate)
  : @IColorscheme IPalette IPalette IPalette :=
  let selected : IPalette :=
    omap (λ i, pywalColorAt pywalColors (Some i)) template in
  let palette : IPalette :=
    match customColors with
    | object custom => custom ∪ selected
    | undefined | null => selected
    end in
  mkColorscheme (String.concat "," pywalColors) palette palette palette.

Definition sampleTemplate : IPaletteTemplate :=
  {[ "background" := 0%Z; "text" := 1%Z ]}.

(** A state after a first palette, with a custom background colour and
    the DuckDuckGo option switched off. *)
Definition sampleState : @State IPalette IPalette IPalette IPaletteTemplate :=
  mkState true
          (Some ["#101010"; "#e0e0e0"; "#000000"; "#ffffff"])
          (Some (sampleGenerate ["#101010"; "#e0e0e0"; "#000000"; "#ffffff"]
                   (object {[ "background" := "#123456" ]}) sampleTemplate))
          (Some {[ "background" := "#123456" ]})
          sampleTemplate
          false
          (finite (13 # 1)).

(** The same state with a second custom colour, equal to the pywal
    colour that [sampleTemplate] selects for it. *)
Definition sampleStateTwoCustom
  : @State IPalette IPalette IPalette IPaletteTemplate :=
  state_setCustomColors
    (Some {[ "background" := "#123456"; "text" := "#e0e0e0" ]}) sampleState.

(** The state of a fresh installation: nothing fetched yet. *)
Definition sampleStateEmpty
  : @State IPalette IPalette IPalette IPaletteTemplate :=
  mkState false None None None sampleTemplate false (finite (13 # 1)).

Example setCssFontSize_15 :
  logOf (setCssFontSize (mkOptionSetData "fontSize" false (Some (finite (15 # 1))))
                        sampleState)
  = [NativeRequestFontSizeSet UserChrome (finite (15 # 1))].
Proof. reflexivity. Qed.

Example setCssFontSize_half :
  logOf (setCssFontSize (mkOptionSetData "fontSize" false (Some (finite (19 # 2))))
                        sampleState)
  = [UISendNotification "Font size error" "Invalid size or not set" (Some true)].
Proof. reflexivity. Qed.

Example setCssFontSize_NaN :
  logOf (setCssFontSize (mkOptionSetData "fontSize" false (Some NaN)) sampleState)
  = [UISendNotification "Font size error" "Invalid size or not set" (Some true)].
Proof. reflexivity. Qed.

Example updateThemes_sample :
  browser <$> colorscheme (stateAfter
    (updateThemes sampleGenerate ["#101010"; "#e0e0e0"]
                  (object {[ "text" := "#abcdef" ]}) sampleState))
  = Some {[ "background" := "#101010"; "text" := "#abcdef" ]}.
Proof. vm_compute. reflexivity. Qed.

(** The background colour of a browser theme handed to the browser. *)
Definition backgroundSent (e : @Effect IPalette IPalette IPalette)
  : option (option string) :=
  match e with
  | BrowserThemeUpdate colors => Some (colors !! "background")
  | _ => None
  end.

(** C1, counterexample. With a custom background colour in the state, a
    palette from the daemon is applied without it: the browser theme
    that the stored custom colours would give is not the one sent to
    the browser. *)
Lemma appliesWithStoredCustomColors_fails :
  ¬ appliesWithStoredCustomColors sampleExtend sampleGenerate
      ["#202020"; "#d0d0d0"] sampleState.
Proof.
  intros [H _].
  apply (list_elem_of_fmap_2 backgroundSent) in H.
  vm_compute in H.
  repeat (apply elem_of_cons in H as [H|H]; [discriminate|]).
  by apply elem_of_nil in H.
Qed.

(** C3, counterexample. With the DuckDuckGo option switched off,
    [updateThemes] makes no call to DuckDuckGo. *)
Lemma alwaysSetsDDGTheme_fails :
  ¬ alwaysSetsDDGTheme sampleGenerate ["#202020"; "#d0d0d0"] undefined
      sampleState.
Proof.
  intros H. unfold alwaysSetsDDGTheme in H.
  rewrite updateThemes_run in H. simpl in H.
  apply elem_of_cons in H as [H|H]; [discriminate|].
  apply elem_of_cons in H as [H|H]; [discriminate|].
  apply elem_of_cons in H as [H|H]; [discriminate|].
  by apply elem_of_nil in H.
Qed.

Lemma applyUpdatedPaletteTemplate_spec_witness :
  customColors (stateAfter
    (applyUpdatedPaletteTemplate sampleGenerate sampleTemplate
                                 sampleStateTwoCustom))
  = filter (keptBy ["#101010"; "#e0e0e0"; "#000000"; "#ffffff"] sampleTemplate)
      <$> Some {[ "background" := "#123456"; "text" := "#e0e0e0" ]} ∧
  filter (keptBy ["#101010"; "#e0e0e0"; "#000000"; "#ffffff"] sampleTemplate)
    ({[ "background" := "#123456"; "text" := "#e0e0e0" ]} : IPalette)
    !! "background" = Some "#123456" ∧
  applyUpdatedPaletteTemplate sampleGenerate sampleTemplate sampleStateEmpty
  = (tt, sampleStateEmpty, []).
Proof.
  split; [|split].
  - exact (f_equal customColors (proj2 (proj2 (proj2
      (proj1 (applyUpdatedPaletteTemplate_spec sampleGenerate sampleTemplate
                sampleStateTwoCustom)
         ["#101010"; "#e0e0e0"; "#000000"; "#ffffff"] eq_refl))))).
  - apply (proj1
      (proj1 (applyUpdatedPaletteTemplate_spec sampleGenerate sampleTemplate
                sampleStateTwoCustom)
         ["#101010"; "#e0e0e0"; "#000000"; "#ffffff"] eq_refl)
      {[ "background" := "#123456"; "text" := "#e0e0e0" ]}
      "background" "#123456" eq_refl).
    split; [reflexivity|]. vm_compute. discriminate.
  - exact (proj2 (applyUpdatedPaletteTemplate_spec sampleGenerate sampleTemplate
                    sampleStateEmpty) eq_refl).
Defined.

(** The custom text colour is the one the template selects, so a new
    template application drops it and keeps the custom background. *)
Example applyUpdatedPaletteTemplate_sample :
  customColors (stateAfter
    (applyUpdatedPaletteTemplate sampleGenerate sampleTemplate
                                 sampleStateTwoCustom))
  = Some {[ "background" := "#123456" ]}.
Proof. vm_compute. reflexivity. Qed.

(** *** The further theorems on the concrete instance *)

Definition samplePywal : IPywalColors :=
  ["#101010"; "#e0e0e0"; "#000000"; "#ffffff"].

Lemma setPaletteColor_spec_witness :
  setPaletteColor sampleGenerate (object {[ "text" := "#abcdef" ]})
                  sampleStateEmpty
  = (tt, sampleStateEmpty, []) ∧
  customColors (stateAfter
    (setPaletteColor sampleGenerate (object {[ "text" := "#abcdef" ]})
                     sampleState))
  = Some ({[ "text" := "#abcdef" ]} ∪ {[ "background" := "#123456" ]}).
Proof.
  split.
  - exact (proj1 (setPaletteColor_spec sampleGenerate
                    {[ "text" := "#abcdef" ]} sampleStateEmpty) eq_refl).
  - exact (proj1 (proj2 (setPaletteColor_spec sampleGenerate
                           {[ "text" := "#abcdef" ]} sampleState)
                    samplePywal eq_refl)).
Defined.

Lemma forIn_any_order_witness :
  forIn (dropTemplateColor samplePywal sampleTemplate)
        ["text"; "accent"; "background"; "text"]
        {[ "background" := "#123456"; "text" := "#e0e0e0" ]}
  = filter (keptBy samplePywal sampleTemplate)
      {[ "background" := "#123456"; "text" := "#e0e0e0" ]}.
Proof.
  apply forIn_any_order. intros color [v Hv].
  destruct (decide (color = "text")) as [->|Ht].
  - left.
  - destruct (decide (color = "background")) as [->|Hb].
    + right. right. left.
    + exfalso. rewrite lookup_insert_ne in Hv by done.
      rewrite lookup_singleton_ne in Hv by done. discriminate.
Defined.

Lemma dropTemplateColors_keeps_witness :
  dropTemplateColors samplePywal {[ "accent" := 9%Z ]}
    {[ "accent" := "#ff0000" ]} !! "accent" = Some "#ff0000".
Proof.
  apply (proj2 (dropTemplateColors_keeps samplePywal {[ "accent" := 9%Z ]}
                  {[ "accent" := "#ff0000" ]})).
  - reflexivity.
  - vm_compute. right. discriminate.
Defined.

Lemma pick_then_applyTemplate_witness :
  let st1 := stateAfter (setPaletteColor sampleGenerate
                           (object {[ "text" := "#e0e0e0" ]}) sampleState) in
  let st2 := stateAfter (applyUpdatedPaletteTemplate sampleGenerate
                           sampleTemplate st1) in
  (customColors st1 ≫= (.!! "text")) = Some "#e0e0e0" ∧
  (customColors st2 ≫= (.!! "text")) = None.
Proof.
  intros st1 st2.
  destruct (pick_then_applyTemplate sampleGenerate "text" "#e0e0e0"
              sampleTemplate samplePywal sampleState eq_refl eq_refl)
    as (H1 & H2 & _).
  split; [exact H1 | exact H2].
Defined.

(** [sampleState] with the DuckDuckGo option switched on. *)
Definition sampleStateDDG
  : @State IPalette IPalette IPalette IPaletteTemplate :=
  state_setDDGThemeEnabled true sampleState.

Lemma setDDGEnabled_off_on_witness :
  stateAfter
    (setDDGEnabled (mkOptionSetData "duckduckgo" true None)
       (stateAfter (setDDGEnabled (mkOptionSetData "duckduckgo" false None)
                      sampleStateDDG)))
  = sampleStateDDG.
Proof.
  exact (proj2 (setDDGEnabled_off_on
                  (mkOptionSetData "duckduckgo" false None)
                  (mkOptionSetData "duckduckgo" true None)
                  sampleStateDDG
                  (sampleGenerate samplePywal
                     (object {[ "background" := "#123456" ]}) sampleTemplate)
                  eq_refl eq_refl eq_refl eq_refl)).
Defined.

Lemma ddg_follows_update_witness :
  ddgCalls (logOf
    (setDDGEnabled (mkOptionSetData "duckduckgo" true None)
       (stateAfter (updateThemes sampleGenerate ["#202020"; "#d0d0d0"]
                      undefined sampleState))))
  = [DDGSetTheme "#202020,#d0d0d0"
       (duckduckgo (sampleGenerate ["#202020"; "#d0d0d0"] undefined
                      sampleTemplate))].
Proof.
  exact (proj2 (ddg_follows_update sampleGenerate ["#202020"; "#d0d0d0"]
                  undefined (mkOptionSetData "duckduckgo" true None)
                  sampleState eq_refl)).
Defined.

(** Stand-ins for the constants and for [parseFloat]: version 2.0 is
    required, 13 is the default font size, and the two version strings
    that occur below are parsed, everything else being NaN. *)
Definition sampleTargetName (target : CSSTargets) : string :=
  match target with
  | UserChrome => "userChrome"
  | UserContent => "userContent"
  end.

Definition sampleParseFloat (version : string) : number :=
  if decide (version = "1.5") then finite (3 # 2)
  else if decide (version = "2.1") then finite (21 # 10)
  else NaN.

Definition sampleSession
  : @Session IPalette IPalette IPalette IPaletteTemplate :=
  mkSession (state_setCssFontSize (finite (15 # 1)) sampleState)
            (finite (21 # 10)) true false false false.

Example validateVersion_old :
  eventsOf (validateVersion (2 # 1) sampleParseFloat "1.5" sampleSession)
  = [PageOpen UPDATE].
Proof. reflexivity. Qed.

Example validateVersion_current :
  eventsOf (validateVersion (2 # 1) sampleParseFloat "2.1" sampleSession)
  = [].
Proof. reflexivity. Qed.

Lemma validateVersion_spec_witness :
  eventsOf (validateVersion (2 # 1) sampleParseFloat "unknown" sampleSession)
  = [].
Proof.
  exact (proj2 (proj2 (validateVersion_spec (2 # 1) sampleParseFloat
                         "unknown" sampleSession)) eq_refl).
Defined.


Lemma cssToggleSuccess_font_size_witness :
  eventsOf (cssToggleSuccess (finite (13 # 1)) sampleTargetName
              UserChrome sampleSession)
  = [Core (UISendNotification "Font size error"
             "Invalid size or not set" (Some true));
     Core (UISendOption "userChrome" true);
     Core (UISendNotification "Restart needed"
             "userChrome was enabled successfully!" None)].
Proof.
  exact (proj2 (cssToggleSuccess_font_size (finite (13 # 1))
                  sampleTargetName UserChrome sampleSession)
           eq_refl eq_refl eq_refl).
Defined.

Lemma setCustomCSSEnabled_spec_witness :
  eventsOf (setCustomCSSEnabled sampleTargetName
              (mkOptionSetData "userContent" true None) sampleSession)
  = [NativeRequestCssEnabled "userContent" true] ∧
  ∀ t e,
    NativeRequestCssEnabled t e ∉
      eventsOf (setCustomCSSEnabled sampleTargetName
                  (mkOptionSetData "fontSize" true None) sampleSession).
Proof.
  split.
  - apply (proj1 (proj2 (setCustomCSSEnabled_spec sampleTargetName
                           (mkOptionSetData "userContent" true None)
                           sampleSession))).
    exists UserContent. reflexivity.
  - apply (proj2 (proj2 (setCustomCSSEnabled_spec sampleTargetName
                           (mkOptionSetData "fontSize" true None)
                           sampleSession))).
    intros []; discriminate.
Defined.

End Background.
